(** * sm8150-common: FOD dim-alpha curve and vibrator sequencing

    A shallow embedding of the two units of the repository that carry
    logic:

    - [fod/FingerprintInscreen.cpp]: [interpolate], [brightness_to_alpha]
      and [FingerprintInscreen::getDimAmount];
    - [vibrator/Vibrator.cpp]: [Vibrator::on], [off], [setAmplitude] and
      [performEffect].

    C++ [int] arithmetic is embedded as checked arithmetic on [Z]: an
    operation whose mathematical result leaves the 32-bit signed range, or a
    division by zero, is undefined behaviour and yields [None].  Array
    accesses go through the list lookup [!!], so an access out of bounds
    yields [None] as well.  Writes to sysfs endpoints are recorded in an
    ordered log. *)

From Stdlib Require Import ZArith String List Lia QArith Qround.
From Stdlib Require Import Floats.SpecFloat.
From stdpp Require Import base option list strings gmap.

Local Open Scope Z_scope.

(** ** C++ integer types *)

Module CInt.

Definition INT_MIN : Z := -2147483648.
Definition INT_MAX : Z := 2147483647.
Definition UINT_MODULUS : Z := 4294967296.

Definition in_int (z : Z) : bool := (INT_MIN <=? z) && (z <=? INT_MAX).

(** Conversion of an [int] to [std::uint32_t] (the usual arithmetic
    conversion applied when the two are compared). *)
Definition to_u32 (z : Z) : Z := z mod UINT_MODULUS.

(** Conversion of a [std::uint32_t] to [int]. *)
Definition to_i32 (u : Z) : Z := if u <=? INT_MAX then u else u - UINT_MODULUS.

(** Result of a signed operation: defined only when representable. *)
Definition ck (z : Z) : option Z := if in_int z then Some z else None.

Definition add (a b : Z) : option Z := ck (a + b).
Definition sub (a b : Z) : option Z := ck (a - b).
Definition mul (a b : Z) : option Z := ck (a * b).

(** [/] and [%] truncate towards zero and are undefined for a zero
    divisor or an unrepresentable quotient. *)
Definition div (a b : Z) : option Z :=
  if b =? 0 then None else ck (Z.quot a b).
Definition rem (a b : Z) : option Z :=
  if b =? 0 then None else _ ← ck (Z.quot a b); Some (Z.rem a b).

(** The condition of [if (e)] for an integer [e]. *)
Definition truthy (z : Z) : bool := negb (z =? 0).

End CInt.

(** ** fod/FingerprintInscreen.cpp *)

Module Fod.
Import CInt.

(** [struct ba]: both fields are [std::uint32_t]. *)
Record ba : Type := mk_ba { brightness : Z; alpha : Z }.

Definition brightness_alpha_lut_1 : list ba :=
  [ mk_ba 0 0xff;   mk_ba 1 0xf1;   mk_ba 2 0xf0;   mk_ba 3 0xee;
    mk_ba 4 0xec;   mk_ba 6 0xeb;   mk_ba 10 0xe7;  mk_ba 20 0xdf;
    mk_ba 30 0xd8;  mk_ba 45 0xd0;  mk_ba 70 0xc5;  mk_ba 100 0xb9;
    mk_ba 150 0xaf; mk_ba 227 0x99; mk_ba 300 0x88; mk_ba 400 0x76;
    mk_ba 500 0x66; mk_ba 600 0x59; mk_ba 800 0x42; mk_ba 1023 0x2a;
    mk_ba 2000 0x83 ].

(** [struct ba brightness_alpha_lut[21] = {}]: the zero-initialised global
    that [brightness_to_alpha] reads. *)
Definition brightness_alpha_lut_zero : list ba := replicate 21 (mk_ba 0 0).

(** The copy loop of the constructor,
    [for (i = 0; i < 21; i++) brightness_alpha_lut[i] = brightness_alpha_lut_1[i]];
    [remaining] is [21 - i]. *)
Fixpoint copy_lut (src dst : list ba) (i remaining : nat) : option (list ba) :=
  match remaining with
  | O => Some dst
  | S remaining' =>
      e ← src !! i;
      if decide (i < length dst)%nat
      then copy_lut src (<[i := e]> dst) (S i) remaining'
      else None
  end.

Definition FingerprintInscreen_ctor (lut : list ba) : option (list ba) :=
  copy_lut brightness_alpha_lut_1 lut 0 21.

(** [static int interpolate(int x, int xa, int xb, int ya, int yb)] *)
Definition interpolate (x xa xb ya yb : Z) : option Z :=
  (* bf = 2 * (yb - ya) * (x - xa) / (xb - xa); *)
  dy ← sub yb ya;
  m1 ← mul 2 dy;
  t ← sub x xa;
  m2 ← mul m1 t;
  dx ← sub xb xa;
  bf ← div m2 dx;
  (* factor = bf / 2; plus = bf % 2; *)
  factor ← div bf 2;
  plus ← rem bf 2;
  (* if ((xa - xb) && (yb - ya))
         sub = 2 * (x - xa) * (x - xb) / (yb - ya) / (xa - xb); *)
  c1 ← sub xa xb;
  s ← (if truthy c1
       then
         c2 ← sub yb ya;
         if truthy c2
         then
           t1 ← sub x xa;
           n1 ← mul 2 t1;
           t2 ← sub x xb;
           n2 ← mul n1 t2;
           d1 ← sub yb ya;
           q1 ← div n2 d1;
           d2 ← sub xa xb;
           div q1 d2
         else Some 0
       else Some 0);
  (* return ya + factor + plus + sub; *)
  r1 ← add ya factor;
  r2 ← add r1 plus;
  add r2 s.

(** The scan loop of [brightness_to_alpha],
    [for (i = 0; i < ARRAY_SIZE(lut); i++) if (lut[i].brightness >= brightness) break;].
    The left operand is [std::uint32_t], so the [int] argument is converted
    to [std::uint32_t] before the comparison.  [remaining] is
    [ARRAY_SIZE(lut) - i]; the result is the value of [i] after the loop. *)
Fixpoint scan (lut : list ba) (b : Z) (i remaining : nat) : option nat :=
  match remaining with
  | O => Some i
  | S remaining' =>
      e ← lut !! i;
      if to_u32 b <=? brightness e then Some i
      else scan lut b (S i) remaining'
  end.

(** [int brightness_to_alpha(int brightness)], reading the global table
    [lut]. *)
Definition brightness_to_alpha (lut : list ba) (b : Z) : option Z :=
  let level := length lut in
  i ← scan lut b 0 level;
  if decide (i = 0%nat) then
    e ← lut !! 0%nat; Some (to_i32 (alpha e))
  else if decide (i = level) then
    e ← lut !! (level - 1)%nat; Some (to_i32 (alpha e))
  else
    lo ← lut !! (i - 1)%nat;
    hi ← lut !! i;
    interpolate b (to_i32 (brightness lo)) (to_i32 (brightness hi))
                  (to_i32 (alpha lo)) (to_i32 (alpha hi)).

(** The table as the constructor leaves it (see [ctor_fills_table]), and
    the curve every method call sees. *)
Definition brightness_alpha_lut : list ba := brightness_alpha_lut_1.

Definition alpha_for (b : Z) : option Z :=
  brightness_to_alpha brightness_alpha_lut b.

Definition BRIGHTNESS_PATH : string :=
  "/sys/class/backlight/panel0-backlight/brightness".
Definition HBM_ENABLE_PATH : string :=
  "/sys/class/drm/card0-DSI-1/op_friginer_print_hbm".
Definition DIM_AMOUNT_PATH : string := "/sys/class/drm/card0-DSI-1/dim_alpha".
Definition HBM_PATH : string := "/sys/class/drm/card0-DSI-1/hbm".

(** [template <typename T> static T get(path, def)] at [T = int].  The
    file system maps a path to the integer its text denotes; a path that is
    absent stands for a file that cannot be opened or parsed.  Extraction
    of a number that [int] cannot hold sets the fail bit, so the default is
    returned then as well. *)
Definition get (fs : gmap string Z) (path : string) (def : Z) : Z :=
  match fs !! path with
  | Some v => if in_int v then v else def
  | None => def
  end.

(** [FingerprintInscreen::getDimAmount(int32_t)].  The file holds both
    sides of an unmerged cherry-pick.  This is the side of commit 1b15a52
    ("Calculate dim alpha based on real brightness"), the only one that
    calls [brightness_to_alpha] and reads [HBM_PATH]. *)
Definition getDimAmount (lut : list ba) (fs : gmap string Z) (_ : Z) : option Z :=
  let brightness := get fs BRIGHTNESS_PATH 0 in
  dimAmount ← brightness_to_alpha lut brightness;
  let hbmMode := get fs HBM_PATH 0 in
  Some (if hbmMode =? 5 then 42 else dimAmount).

(** The [HEAD] side of the same conflict; [FOD_HBM] is a build flag. *)
Definition getDimAmount_HEAD (FOD_HBM : bool) (fs : gmap string Z) (_ : Z) : option Z :=
  Some (if FOD_HBM then get fs DIM_AMOUNT_PATH 0 else 0).

End Fod.

(** ** vibrator/Vibrator.cpp *)

Module Vib.

Definition ACTIVATE_PATH : string := "/sys/class/leds/vibrator/activate".
Definition BRIGHTNESS_PATH : string := "/sys/class/leds/vibrator/brightness".
Definition CTRL_LOOP_PATH : string := "/sys/class/leds/vibrator/loop".
Definition DURATION_PATH : string := "/sys/class/leds/vibrator/duration".
Definition GAIN_PATH : string := "/sys/class/leds/vibrator/gain".
Definition IGNORE_STORE_PATH : string := "/sys/class/leds/vibrator/ignore_store".
Definition LP_TRIGGER_PATH : string := "/sys/class/leds/vibrator/haptic_audio".
Definition LRA_WAVE_SHAPE_PATH : string := "/sys/class/leds/vibrator/lra_resistance".
Definition MODE_PATH : string := "/sys/class/leds/vibrator/activate_mode".
Definition RTP_INPUT_PATH : string := "/sys/class/leds/vibrator/rtp".
Definition SCALE_PATH : string := "/sys/class/leds/vibrator/gain".
Definition SEQ_PATH : string := "/sys/class/leds/vibrator/seq".
Definition VMAX_PATH : string := "/sys/class/leds/vibrator/vmax".

(** What [file << value] is given, by the static type of [value]:
    [int], [int32_t] and [uint32_t] are formatted as a decimal number,
    [uint8_t] is a character type and is written as one raw byte, and a
    [const char *] is written as text. *)
Inductive value : Type :=
| VInt (z : Z)
| VByte (c : Z)
| VStr (s : string).

Definition write : Type := string * value.

Definition RTP_MODE : string := "rtp".
Definition MAX_RTP_INPUT : Z := 127.
Definition MIN_RTP_INPUT : Z := 0.
Definition WAVEFORM_MODE : string := "waveform".
Definition SQUARE_WAVE : Z := 0.
Definition SINE_WAVE : Z := 1.
Definition GAIN : Z := 128.
Definition LOOP_MODE_OPEN : Z := 1.
Definition VMAX : Z := 9.

Definition WAVEFORM_CLICK_EFFECT_SEQ : list string := ["0 1"; "1 0"]%string.
Definition WAVEFORM_CLICK_EFFECT_CTRL_LOOPS : list string := ["0 0x0"]%string.
Definition WAVEFORM_CLICK_EFFECT_MS : Z := 0.
Definition WAVEFORM_TICK_EFFECT_SEQ : list string := ["0 1"; "1 0"]%string.
Definition WAVEFORM_TICK_EFFECT_CTRL_LOOPS : list string := ["1 0x0"]%string.
Definition WAVEFORM_TICK_EFFECT_MS : Z := 0.
Definition WAVEFORM_DOUBLE_CLICK_EFFECT_SEQ : list string := ["0 1"]%string.
Definition WAVEFORM_DOUBLE_CLICK_EFFECT_CTRL_LOOPS : list string :=
  ["0 0x0"; "1 0x0"]%string.
Definition WAVEFORM_DOUBLE_CLICK_EFFECT_MS : Z := 10.
Definition WAVEFORM_HEAVY_CLICK_EFFECT_SEQ : list string := ["0 0"; "1 0"]%string.
Definition WAVEFORM_HEAVY_CLICK_EFFECT_CTRL_LOOPS : list string := ["1 0x1"]%string.
Definition WAVEFORM_HEAVY_CLICK_EFFECT_MS : Z := 10.
Definition WAVEFORM_POP_EFFECT_MS : Z := 5.
Definition WAVEFORM_THUD_EFFECT_MS : Z := 10.

(** Modelled from the spec: the HAL enumeration [Status] is declared outside
    this repository; these are the three statuses [Vibrator.cpp] returns. *)
Inductive Status : Type := OK | BAD_VALUE | UNSUPPORTED_OPERATION.

(** Modelled from the spec: the HAL enumeration [Effect] is declared outside
    this repository.  The enumerators that the switch of [performEffect]
    names are distinguished; every other value of the underlying integer is
    [Effect_other]. *)
Inductive Effect : Type :=
| CLICK | DOUBLE_CLICK | TICK | THUD | POP | HEAVY_CLICK
| Effect_other (raw : Z).

(** Modelled from the spec: the HAL enumeration [EffectStrength] is declared
    outside this repository; every value other than the three named ones is
    [Strength_other]. *)
Inductive EffectStrength : Type :=
| LIGHT | MEDIUM | STRONG
| Strength_other (raw : Z).

(** The member [mShouldSetBrightness] and the writes issued so far, oldest
    first. *)
Record state : Type := mk_state {
  mShouldSetBrightness : bool;
  writes : list write
}.

(** Statements run in a state monad with undefined behaviour as failure. *)
Definition M (A : Type) : Type := state → option (A * state).

#[export] Instance M_ret : MRet M := λ A a st, Some (a, st).
#[export] Instance M_bind : MBind M := λ A B f m st,
  match m st with
  | Some (a, st') => f a st'
  | None => None
  end.

Definition undefined {A : Type} : M A := λ _, None.

Definition store_flag (b : bool) : M unit := λ st,
  Some ((), mk_state b (writes st)).
Definition load_flag : M bool := λ st, Some (mShouldSetBrightness st, st).

(** [template <typename T> static void set(path, value)]; a file that
    cannot be opened is logged and skipped by the callee, the request is
    recorded either way. *)
Definition set (path : string) (v : value) : M unit := λ st,
  Some ((), mk_state (mShouldSetBrightness st) (writes st ++ [(path, v)])).

(** A range-based [for] over an initializer list. *)
Fixpoint for_each {A : Type} (body : A → M unit) (l : list A) : M unit :=
  match l with
  | [] => mret ()
  | x :: l' => body x ;; for_each body l'
  end.

(** [Vibrator::Vibrator()] *)
Definition Vibrator_ctor : M unit := set LP_TRIGGER_PATH (VInt 1).

(** [Vibrator::on(uint32_t timeoutMs, bool isWaveform)] *)
Definition on_mode (timeoutMs : Z) (isWaveform : bool) : M Status :=
  set CTRL_LOOP_PATH (VByte LOOP_MODE_OPEN) ;;
  set DURATION_PATH (VInt timeoutMs) ;;
  (if isWaveform then
     set MODE_PATH (VStr WAVEFORM_MODE) ;;
     set LRA_WAVE_SHAPE_PATH (VByte SINE_WAVE)
   else
     set MODE_PATH (VStr RTP_MODE) ;;
     set LRA_WAVE_SHAPE_PATH (VByte SQUARE_WAVE)) ;;
  flag ← load_flag;
  (if flag : bool then
     set BRIGHTNESS_PATH (VInt 1)
   else
     set BRIGHTNESS_PATH (VInt 0) ;;
     set ACTIVATE_PATH (VInt 1)) ;;
  mret OK.

(** [Vibrator::on(uint32_t timeoutMs)] *)
Definition on (timeoutMs : Z) : M Status :=
  store_flag false ;;
  on_mode timeoutMs false.

(** [Vibrator::off()] *)
Definition off : M Status :=
  set BRIGHTNESS_PATH (VInt 0) ;;
  set ACTIVATE_PATH (VInt 0) ;;
  mret OK.

Definition supportsAmplitudeControl : M bool := mret true.

(** [double] is IEEE 754 binary64 with round-to-nearest-even. *)
Definition double : Type := spec_float.
Definition double_of_int (z : Z) : double := binary_normalize 53 1024 z 0 false.
Definition ddiv : double → double → double := SFdiv 53 1024.
Definition dmul : double → double → double := SFmul 53 1024.
Definition dadd : double → double → double := SFadd 53 1024.

(** [std::round]: the nearest integer, halfway cases away from zero; no
    integer for an infinity or a NaN. *)
Definition std_round (x : double) : option Z :=
  match x with
  | S754_zero _ => Some 0
  | S754_finite s m e =>
      let magnitude :=
        match e with
        | Zneg p =>
            let d := 2 ^ Zpos p in
            let q := Zpos m / d in
            if d <=? 2 * (Zpos m mod d) then q + 1 else q
        | _ => Zpos m * 2 ^ e
        end in
      Some (if s then - magnitude else magnitude)
  | S754_infinity _ | S754_nan => None
  end.

(** [std::round((amplitude - 1) / 254.0 * (MAX_RTP_INPUT - MIN_RTP_INPUT)
    + MIN_RTP_INPUT)] converted to [int32_t]; the conversion is undefined
    when the rounded value is not representable. *)
Definition rtp_input_of (amplitude : Z) : option Z :=
  r ← std_round
        (dadd (dmul (ddiv (double_of_int (amplitude - 1)) (double_of_int 254))
                    (double_of_int (MAX_RTP_INPUT - MIN_RTP_INPUT)))
              (double_of_int MIN_RTP_INPUT));
  CInt.ck r.

(** [Vibrator::setAmplitude(uint8_t amplitude)] *)
Definition setAmplitude (amplitude : Z) : M Status :=
  if amplitude =? 0 then mret BAD_VALUE
  else
    match rtp_input_of amplitude with
    | Some value => set RTP_INPUT_PATH (VInt value) ;; mret OK
    | None => undefined
    end.

(** The lambda [convertEffectStrength] of [performEffect]. *)
Definition convertEffectStrength (strength : EffectStrength) : Z :=
  match strength with
  | LIGHT => 54
  | MEDIUM | STRONG => 107
  | Strength_other _ => 0
  end.

Definition when_set {A : Type} (o : option A) (body : A → M unit) : M unit :=
  match o with
  | Some a => body a
  | None => mret ()
  end.

(** The lambda [setEffect] of [performEffect]. *)
Definition setEffect (sequences ctrlLoops : option (list string))
    (duration vmax gain : option Z) : M unit :=
  set ACTIVATE_PATH (VInt 0) ;;
  set IGNORE_STORE_PATH (VInt 0) ;;
  when_set duration (λ d, set DURATION_PATH (VInt d)) ;;
  when_set vmax (λ v, set VMAX_PATH (VByte v)) ;;
  when_set gain (λ g, set GAIN_PATH (VByte g)) ;;
  when_set sequences (for_each (λ sequence, set SEQ_PATH (VStr sequence))) ;;
  when_set ctrlLoops (for_each (λ ctrlLoop, set CTRL_LOOP_PATH (VStr ctrlLoop))).

(** [Vibrator::performEffect(effect, strength, _hidl_cb)].  The result is
    the pair handed to [_hidl_cb].  The [switch] either leaves with the
    callback already made ([inl], the [default] label) or falls through
    with [timeMS] ([inr]). *)
Definition performEffect (effect : Effect) (strength : EffectStrength)
    : M (Status * Z) :=
  let status := OK in
  sw ← match effect with
       | CLICK =>
           setEffect (Some WAVEFORM_CLICK_EFFECT_SEQ)
             (Some WAVEFORM_CLICK_EFFECT_CTRL_LOOPS) None (Some VMAX) (Some GAIN) ;;
           store_flag true ;;
           mret (inr WAVEFORM_CLICK_EFFECT_MS)
       | DOUBLE_CLICK =>
           setEffect (Some WAVEFORM_DOUBLE_CLICK_EFFECT_SEQ)
             (Some WAVEFORM_DOUBLE_CLICK_EFFECT_CTRL_LOOPS) None (Some VMAX) (Some GAIN) ;;
           store_flag true ;;
           mret (inr WAVEFORM_DOUBLE_CLICK_EFFECT_MS)
       | TICK =>
           setEffect (Some WAVEFORM_TICK_EFFECT_SEQ)
             (Some WAVEFORM_TICK_EFFECT_CTRL_LOOPS) None (Some VMAX) (Some GAIN) ;;
           store_flag true ;;
           mret (inr WAVEFORM_TICK_EFFECT_MS)
       | HEAVY_CLICK =>
           setEffect (Some WAVEFORM_HEAVY_CLICK_EFFECT_SEQ)
             (Some WAVEFORM_HEAVY_CLICK_EFFECT_CTRL_LOOPS) None (Some VMAX) (Some GAIN) ;;
           store_flag true ;;
           mret (inr WAVEFORM_HEAVY_CLICK_EFFECT_MS)
       | POP =>
           setEffect None None (Some 0) (Some VMAX) (Some GAIN) ;;
           store_flag true ;;
           mret (inr WAVEFORM_POP_EFFECT_MS)
       | THUD =>
           setEffect None None (Some 0) (Some VMAX) (Some GAIN) ;;
           store_flag true ;;
           mret (inr WAVEFORM_THUD_EFFECT_MS)
       | Effect_other _ =>
           store_flag false ;;
           mret (inl (UNSUPPORTED_OPERATION, 0))
       end;
  match sw : (Status * Z) + Z with
  | inl reported => mret reported
  | inr timeMS =>
      set SCALE_PATH (VByte (convertEffectStrength strength)) ;;
      on_mode timeMS true ;;
      mret (status, timeMS)
  end.

(** The three HAL entry points cast their effect and forward. *)
Definition perform := performEffect.
Definition perform_1_1 := performEffect.
Definition perform_1_2 := performEffect.

(** Contents of the endpoints after a run of writes: the last value
    written to each path. *)
Definition apply_writes (fs : gmap string value) (ws : list write)
    : gmap string value :=
  foldl (λ m w, <[w.1 := w.2]> m) fs ws.

End Vib.

(** ** fod/FingerprintInscreen.cpp: the request handlers *)

Module FodHal.
Import CInt Fod.

Definition FINGERPRINT_ACQUIRED_VENDOR : Z := 6.
Definition FINGERPRINT_ERROR_VENDOR : Z := 8.
Definition OP_ENABLE_FP_LONGPRESS : Z := 3.
Definition OP_DISABLE_FP_LONGPRESS : Z := 4.
Definition OP_RESUME_FP_ENROLL : Z := 8.
Definition OP_FINISH_FP_ENROLL : Z := 10.
Definition OP_DISPLAY_AOD_MODE : Z := 8.
Definition OP_DISPLAY_NOTIFY_PRESS : Z := 9.
Definition OP_DISPLAY_SET_DIM : Z := 10.

(** What a handler sends out: [mVendorFpService->updateStatus(status)],
    [mVendorDisplayService->setMode(feature, value)], [set(path, value)] on a
    sysfs file, and the two methods of the registered callback, which is
    named by a handle. *)
Inductive call : Type :=
| updateStatus (status : Z)
| setMode (feature value : Z)
| sysfs_set (path : string) (value : Z)
| onFingerDown (callback : nat)
| onFingerUp (callback : nat).

(** The members [mFodCircleVisible] and [mCallback] ([None] is [nullptr]) and
    the calls made so far, oldest first. *)
Record service : Type := mk_service {
  mFodCircleVisible : bool;
  mCallback : option nat;
  calls : list call
}.

Definition emit (c : call) (s : service) : service :=
  mk_service (mFodCircleVisible s) (mCallback s) (calls s ++ [c]).

(** [#if FOD_HBM  set(HBM_ENABLE_PATH, value);  #endif], the build flag
    [FOD_HBM] being an integer macro. *)
Definition set_hbm (FOD_HBM value : Z) (s : service) : service :=
  if truthy FOD_HBM then emit (sysfs_set HBM_ENABLE_PATH value) s else s.

(** The members as the constructor leaves them. *)
Definition FingerprintInscreen_new : service := mk_service false None [].

Definition onStartEnroll (s : service) : service :=
  let s := emit (updateStatus OP_DISABLE_FP_LONGPRESS) s in
  emit (updateStatus OP_RESUME_FP_ENROLL) s.

Definition onFinishEnroll (s : service) : service :=
  emit (updateStatus OP_FINISH_FP_ENROLL) s.

Definition onPress (FOD_HBM : Z) (s : service) : service :=
  let s := emit (setMode OP_DISPLAY_AOD_MODE 2) s in
  let s := emit (setMode OP_DISPLAY_SET_DIM 1) s in
  let s := set_hbm FOD_HBM 1 s in
  emit (setMode OP_DISPLAY_NOTIFY_PRESS 1) s.

Definition onRelease (FOD_HBM : Z) (s : service) : service :=
  let s := emit (setMode OP_DISPLAY_AOD_MODE 0) s in
  let s := emit (setMode OP_DISPLAY_SET_DIM 0) s in
  let s := set_hbm FOD_HBM 0 s in
  emit (setMode OP_DISPLAY_NOTIFY_PRESS 0) s.

Definition onShowFODView (s : service) : service :=
  mk_service true (mCallback s) (calls s).

Definition onHideFODView (FOD_HBM : Z) (s : service) : service :=
  let s := mk_service false (mCallback s) (calls s) in
  let s := emit (setMode OP_DISPLAY_AOD_MODE 0) s in
  let s := emit (setMode OP_DISPLAY_SET_DIM 0) s in
  let s := set_hbm FOD_HBM 0 s in
  emit (setMode OP_DISPLAY_NOTIFY_PRESS 0) s.

(** [handleAcquired(acquiredInfo, vendorCode)]; a failed callback is only
    logged, the handler returns [true] either way. *)
Definition handleAcquired (acquiredInfo vendorCode : Z) (s : service)
    : bool * service :=
  match mCallback s with
  | None => (false, s)
  | Some callback =>
      if acquiredInfo =? FINGERPRINT_ACQUIRED_VENDOR then
        if mFodCircleVisible s && (vendorCode =? 0) then
          (true, emit (onFingerDown callback) s)
        else if mFodCircleVisible s && (vendorCode =? 1) then
          (true, emit (onFingerUp callback) s)
        else (false, s)
      else (false, s)
  end.

Definition handleError (error vendorCode : Z) : bool :=
  (error =? FINGERPRINT_ERROR_VENDOR) && (vendorCode =? 6).

Definition setLongPressEnabled (enabled : bool) (s : service) : service :=
  emit (updateStatus (if enabled then OP_ENABLE_FP_LONGPRESS
                      else OP_DISABLE_FP_LONGPRESS)) s.

Definition shouldBoostBrightness (FOD_HBM : Z) : bool := negb (truthy FOD_HBM).

Definition setCallback (callback : option nat) (s : service) : service :=
  mk_service (mFodCircleVisible s) callback (calls s).

(** A client's request to the interface, and the handler it reaches. *)
Inductive request : Type :=
| StartEnroll | FinishEnroll | Press | Release | ShowFODView | HideFODView
| Acquired (acquiredInfo vendorCode : Z)
| LongPressEnabled (enabled : bool)
| Callback (callback : option nat).

Definition serve (FOD_HBM : Z) (s : service) (r : request) : service :=
  match r with
  | StartEnroll => onStartEnroll s
  | FinishEnroll => onFinishEnroll s
  | Press => onPress FOD_HBM s
  | Release => onRelease FOD_HBM s
  | ShowFODView => onShowFODView s
  | HideFODView => onHideFODView FOD_HBM s
  | Acquired acquiredInfo vendorCode => (handleAcquired acquiredInfo vendorCode s).2
  | LongPressEnabled enabled => setLongPressEnabled enabled s
  | Callback callback => setCallback callback s
  end.

Definition serve_all (FOD_HBM : Z) (s : service) (rs : list request) : service :=
  foldl (serve FOD_HBM) s rs.

Definition is_finger_event (c : call) : bool :=
  match c with
  | onFingerDown _ | onFingerUp _ => true
  | _ => false
  end.

Definition is_sysfs_write (c : call) : bool :=
  match c with
  | sysfs_set _ _ => true
  | _ => false
  end.

(** The display modes in force after a run of calls: the last value given
    to each feature. *)
Definition display_modes (m : gmap Z Z) (cs : list call) : gmap Z Z :=
  foldl (λ m c, match c with setMode feature value => <[feature := value]> m
                | _ => m end) m cs.

End FodHal.

(** ** Reference statements

    Definitions that restate the documentation of the two units, to be
    compared with the code above, and the finite ranges used to check the
    code exhaustively. *)

Module Reference.
Import Fod Vib.

(** [i] is the first index of [lut] whose brightness is at least [b], the
    comparison being that of the integers. *)
Definition first_ge_index (lut : list ba) (b : Z) (i : nat) : Prop :=
  (∃ hi, lut !! i = Some hi ∧ b <= brightness hi) ∧
  ∀ j e, (j < i)%nat → lut !! j = Some e → brightness e < b.

(** The blend as documented: the correction term ends with a division by
    [dx = brightness[i] - brightness[i-1]]. *)
Definition blend_documented (b : Z) (lo hi : ba) : Z :=
  let dy := alpha hi - alpha lo in
  let dx := brightness hi - brightness lo in
  let t := b - brightness lo in
  let bf := (2 * dy * t) `quot` dx in
  let factor := bf `quot` 2 in
  let plus := bf `rem` 2 in
  let sub :=
    if negb (dx =? 0) && negb (dy =? 0)
    then ((2 * t * (b - brightness hi)) `quot` dy) `quot` dx
    else 0 in
  alpha lo + factor + plus + sub.

(** The same blend with the correction term ending in a division by
    [brightness[i-1] - brightness[i]]. *)
Definition blend_reversed_divisor (b : Z) (lo hi : ba) : Z :=
  let dy := alpha hi - alpha lo in
  let dx := brightness hi - brightness lo in
  let t := b - brightness lo in
  let bf := (2 * dy * t) `quot` dx in
  let factor := bf `quot` 2 in
  let plus := bf `rem` 2 in
  let sub :=
    if negb (dx =? 0) && negb (dy =? 0)
    then ((2 * t * (b - brightness hi)) `quot` dy)
           `quot` (brightness lo - brightness hi)
    else 0 in
  alpha lo + factor + plus + sub.

(** The integers [lo], [lo + 1], ..., [lo + n - 1]. *)
Definition Z_range (lo : Z) (n : nat) : list Z :=
  map (λ k, lo + Z.of_nat k) (seq 0 n).

(** Does the code agree with [blend_reversed_divisor] at [b] when [b] lies
    in the segment that ends at index [i]? *)
Definition segment_agrees (b : Z) (i : nat) : bool :=
  match brightness_alpha_lut !! (i - 1)%nat, brightness_alpha_lut !! i with
  | Some lo, Some hi =>
      if (brightness lo <? b) && (b <=? brightness hi)
      then match alpha_for b with
           | Some v => v =? blend_reversed_divisor b lo hi
           | None => false
           end
      else true
  | _, _ => true
  end.

Definition returns_value (b : Z) : bool :=
  match alpha_for b with Some _ => true | None => false end.

(** Nearest integer to a rational, halfway cases away from zero. *)
Definition Qround_half_away (q : Q) : Z :=
  if Qle_bool 0 q then Qfloor (q + (1 # 2))%Q else Qceiling (q - (1 # 2))%Q.

(** The amplitude law as documented,
    [round((amplitude - 1) / 254 * 127)], over the rationals. *)
Definition rescale_documented (amplitude : Z) : Z :=
  Qround_half_away ((inject_Z (amplitude - 1) / inject_Z 254) * inject_Z 127)%Q.

Definition rescale_agrees (amplitude : Z) : bool :=
  match rtp_input_of amplitude with
  | Some v => v =? rescale_documented amplitude
  | None => false
  end.

(** The gain step function as documented. *)
Definition gain_byte_documented (strength : EffectStrength) : Z :=
  match strength with
  | LIGHT => 54
  | MEDIUM => 107
  | STRONG => 107
  | Strength_other _ => 0
  end.

(** An effect descriptor: sequence-register strings, control-loop strings,
    optional duration override and nominal duration in milliseconds. *)
Record descriptor : Type := mk_descriptor {
  d_sequences : list string;
  d_ctrl_loops : list string;
  d_duration : option Z;
  d_time_ms : Z
}.

Definition descriptor_of (effect : Effect) : option descriptor :=
  match effect with
  | CLICK => Some (mk_descriptor ["0 1"; "1 0"] ["0 0x0"] None 0)
  | DOUBLE_CLICK => Some (mk_descriptor ["0 1"] ["0 0x0"; "1 0x0"] None 10)
  | TICK => Some (mk_descriptor ["0 1"; "1 0"] ["1 0x0"] None 0)
  | HEAVY_CLICK => Some (mk_descriptor ["0 0"; "1 0"] ["1 0x1"] None 10)
  | POP => Some (mk_descriptor [] [] (Some 0) 5)
  | THUD => Some (mk_descriptor [] [] (Some 0) 10)
  | Effect_other _ => None
  end%string.

(** The writes of a descriptor in the documented order: deactivate, clear
    ignore-store, duration override if any, max voltage, gain, sequence
    entries, control-loop entries. *)
Definition descriptor_writes (d : descriptor) : list write :=
  [(Vib.ACTIVATE_PATH, VInt 0); (Vib.IGNORE_STORE_PATH, VInt 0)] ++
  match d_duration d with
  | Some t => [(Vib.DURATION_PATH, VInt t)]
  | None => []
  end ++
  [(Vib.VMAX_PATH, VByte 9); (Vib.GAIN_PATH, VByte 128)] ++
  map (λ s, (Vib.SEQ_PATH, VStr s)) (d_sequences d) ++
  map (λ s, (Vib.CTRL_LOOP_PATH, VStr s)) (d_ctrl_loops d).

(** The writes of [off]. *)
Definition clear_channels : list write :=
  [(Vib.BRIGHTNESS_PATH, VInt 0); (Vib.ACTIVATE_PATH, VInt 0)].

End Reference.

(** Further exhaustive checks over the finite ranges. *)

Module Checks.
Import Fod Vib Reference.

Definition alpha_in_range (b : Z) : bool :=
  match alpha_for b with
  | Some v => (42 <=? v) && (v <=? 255)
  | None => false
  end.

Definition rtp_is_half (amplitude : Z) : bool :=
  match rtp_input_of amplitude with
  | Some v => v =? amplitude `div` 2
  | None => false
  end.

(** What a caller and the hardware see of a run: the result and the writes,
    not the member [mShouldSetBrightness]. *)
Definition observe {A : Type} (r : option (A * state)) : option (A * list write) :=
  (λ p, (p.1, writes p.2)) <$> r.

End Checks.

(** ** Properties of the dim-alpha curve *)

Module FodProofs.
Import CInt Fod Reference.

Lemma ctor_fills_table :
  FingerprintInscreen_ctor brightness_alpha_lut_zero = Some brightness_alpha_lut.
Proof. reflexivity. Qed.

Lemma Z_range_forallb (P : Z → bool) (lo : Z) (n : nat) :
  forallb P (Z_range lo n) = true →
  ∀ b, lo <= b < lo + Z.of_nat n → P b = true.
Proof.
  intros Hall b Hb.
  rewrite forallb_forall in Hall. apply Hall.
  unfold Z_range. apply in_map_iff.
  exists (Z.to_nat (b - lo)). split; [lia|].
  apply in_seq. lia.
Qed.

Lemma to_u32_nonneg (b : Z) : 0 <= b <= INT_MAX → to_u32 b = b.
Proof.
  unfold to_u32, INT_MAX, UINT_MODULUS. intros Hb.
  apply Z.mod_small. lia.
Qed.

Lemma to_u32_negative (b : Z) :
  INT_MIN <= b < 0 → to_u32 b = b + UINT_MODULUS.
Proof.
  unfold to_u32, INT_MIN, UINT_MODULUS. intros Hb.
  symmetry. apply (Z.mod_unique_pos _ _ (-1)); lia.
Qed.

Lemma in_int_bounds (b : Z) : in_int b = true ↔ INT_MIN <= b <= INT_MAX.
Proof. unfold in_int. rewrite andb_true_iff, !Z.leb_le. tauto. Qed.

(** The loop runs to the end of the table when no entry reaches the
    converted argument. *)
Lemma scan_exhausts (lut : list ba) (b : Z) :
  (∀ e, e ∈ lut → brightness e < to_u32 b) →
  ∀ remaining i, (i + remaining = length lut)%nat →
  scan lut b i remaining = Some (length lut).
Proof.
  intros Hlt. induction remaining as [|n IH]; intros i Hlen; simpl.
  - f_equal. lia.
  - destruct (lookup_lt_is_Some_2 lut i) as [e He]; [lia|].
    rewrite He. simpl.
    assert (brightness e < to_u32 b) as Hlt'
      by (apply Hlt; eapply list_elem_of_lookup_2; exact He).
    destruct (Z.leb_spec (to_u32 b) (brightness e)); [lia|].
    apply IH. lia.
Qed.

Lemma table_brightness_bounds (e : ba) :
  e ∈ brightness_alpha_lut → 0 <= brightness e <= 2000.
Proof.
  intros He. apply list_elem_of_In in He.
  unfold brightness_alpha_lut, brightness_alpha_lut_1 in He. simpl in He.
  intuition (subst; simpl; lia).
Qed.

Lemma alpha_for_above (b : Z) : 2000 < to_u32 b → alpha_for b = Some 0x83.
Proof.
  intros Hb. unfold alpha_for, brightness_to_alpha.
  rewrite (scan_exhausts brightness_alpha_lut b); [reflexivity| |reflexivity].
  intros e He. apply table_brightness_bounds in He. lia.
Qed.

Lemma alpha_for_negative (b : Z) : INT_MIN <= b < 0 → alpha_for b = Some 0x83.
Proof.
  intros Hb. apply alpha_for_above. rewrite to_u32_negative by exact Hb.
  unfold INT_MIN, UINT_MODULUS in *. lia.
Qed.

Lemma alpha_for_large (b : Z) : 2000 < b <= INT_MAX → alpha_for b = Some 0x83.
Proof.
  intros Hb. apply alpha_for_above. rewrite to_u32_nonneg; lia.
Qed.

Lemma table_range_returns : forallb returns_value (Z_range 0 2001) = true.
Proof. vm_compute. reflexivity. Qed.

Lemma table_range_agrees :
  forallb (λ b, forallb (segment_agrees b) (seq 1 20)) (Z_range 1 2000) = true.
Proof. vm_compute. reflexivity. Qed.

Lemma alpha_for_total (b : Z) : in_int b = true → is_Some (alpha_for b).
Proof.
  rewrite in_int_bounds. intros Hb.
  destruct (Z_lt_le_dec b 0) as [Hneg|Hpos].
  - rewrite alpha_for_negative by lia. eauto.
  - destruct (Z_le_gt_dec b 2000) as [Hin|Hout].
    + pose proof (Z_range_forallb _ _ _ table_range_returns b) as H.
      unfold returns_value in H.
      destruct (alpha_for b); [eauto|].
      discriminate H. lia.
    + rewrite alpha_for_large by lia. eauto.
Qed.

Lemma scan_in_bounds (lut : list ba) (b : Z) :
  ∀ remaining i, (i + remaining = length lut)%nat →
  ∃ k, scan lut b i remaining = Some k ∧ (i ≤ k ≤ length lut)%nat.
Proof.
  induction remaining as [|n IH]; intros i Hlen; simpl.
  - exists i. split; [reflexivity|lia].
  - destruct (lookup_lt_is_Some_2 lut i) as [e He]; [lia|].
    rewrite He. simpl.
    destruct (to_u32 b <=? brightness e).
    + exists i. split; [reflexivity|lia].
    + destruct (IH (S i)) as [k [Hk Hb]]; [lia|].
      exists k. split; [exact Hk|lia].
Qed.

Lemma table_strictly_increasing (j : nat) (lo hi : ba) :
  brightness_alpha_lut !! j = Some lo →
  brightness_alpha_lut !! S j = Some hi →
  brightness lo < brightness hi.
Proof.
  intros Hlo Hhi.
  do 21 (destruct j as [|j]; [simpl in Hlo, Hhi; simplify_eq; simpl; lia|]).
  discriminate Hlo.
Qed.

Lemma get_in_int (fs : gmap string Z) (path : string) (def : Z) :
  in_int def = true → in_int (get fs path def) = true.
Proof.
  intros Hdef. unfold get.
  destruct (fs !! path) as [v|]; [|exact Hdef].
  destruct (in_int v) eqn:Hv; [exact Hv|exact Hdef].
Qed.

(** C1, as amended.  Whenever the first table index [i] whose brightness is
    at least the input satisfies [0 < i < 21], [alpha_for] returns
    [alpha[i-1] + factor + plus + sub] with [bf = 2*dy*t/dx],
    [factor = bf/2], [plus] the remainder of that truncating division and,
    for [dx] and [dy] non-zero, [sub = 2*t*(input - brightness[i]) / dy /
    (brightness[i-1] - brightness[i])]: the last division is by [-dx]. *)
Theorem alpha_for_interpolates (b : Z) (i : nat) (lo hi : ba) :
  first_ge_index brightness_alpha_lut b i →
  (0 < i < 21)%nat →
  brightness_alpha_lut !! (i - 1)%nat = Some lo →
  brightness_alpha_lut !! i = Some hi →
  alpha_for b = Some (blend_reversed_divisor b lo hi).
Proof.
  intros [[hi' [Hhi' Hge]] Hbelow] Hi Hlo Hhi.
  rewrite Hhi in Hhi'. injection Hhi' as <-.
  assert (brightness lo < b) as Hgt by (apply (Hbelow (i - 1)%nat); [lia|exact Hlo]).
  pose proof (table_brightness_bounds lo (list_elem_of_lookup_2 _ _ _ Hlo)) as Blo.
  pose proof (table_brightness_bounds hi (list_elem_of_lookup_2 _ _ _ Hhi)) as Bhi.
  pose proof (Z_range_forallb _ _ _ table_range_agrees b) as Hall.
  cbv beta in Hall. rewrite forallb_forall in Hall.
  assert (segment_agrees b i = true) as Hseg.
  { apply Hall; [lia|]. apply in_seq. lia. }
  unfold segment_agrees in Hseg. rewrite Hlo, Hhi in Hseg.
  destruct (Z.ltb_spec (brightness lo) b); [|lia].
  destruct (Z.leb_spec b (brightness hi)); [|lia].
  simpl in Hseg.
  destruct (alpha_for b) as [v|]; [|discriminate Hseg].
  apply Z.eqb_eq in Hseg. congruence.
Qed.

Lemma alpha_for_interpolates_witness :
  alpha_for 85 = Some (blend_reversed_divisor 85 (mk_ba 70 0xc5) (mk_ba 100 0xb9)).
Proof.
  apply (alpha_for_interpolates 85 11 (mk_ba 70 0xc5) (mk_ba 100 0xb9)).
  - split.
    + exists (mk_ba 100 0xb9). split; [reflexivity|simpl; lia].
    + intros j e Hj Hlk.
      do 11 (destruct j as [|j]; [simpl in Hlk; simplify_eq; simpl; lia|]).
      lia.
  - lia.
  - reflexivity.
  - reflexivity.
Defined.

(** C1, as documented, fails at brightness 5: the first index is 5, between
    the entries (4, 0xec) and (6, 0xeb); the code returns 234 and the
    documented blend is 236. *)
Lemma documented_blend_fails_at_5 :
  first_ge_index brightness_alpha_lut 5 5 ∧
  brightness_alpha_lut !! 4%nat = Some (mk_ba 4 0xec) ∧
  brightness_alpha_lut !! 5%nat = Some (mk_ba 6 0xeb) ∧
  alpha_for 5 = Some 234 ∧
  blend_documented 5 (mk_ba 4 0xec) (mk_ba 6 0xeb) = 236 ∧
  alpha_for 5 ≠ Some (blend_documented 5 (mk_ba 4 0xec) (mk_ba 6 0xeb)).
Proof.
  split; [|repeat split; try reflexivity; discriminate].
  split.
  - exists (mk_ba 6 0xeb). split; [reflexivity|simpl; lia].
  - intros j e Hj Hlk.
    do 5 (destruct j as [|j]; [simpl in Hlk; simplify_eq; simpl; lia|]).
    lia.
Qed.

(** C2.  The code at brightness -5 and 0: a negative brightness is
    converted to [std::uint32_t] for the comparison, the scan runs off the
    table and the last entry's alpha comes back. *)
Theorem alpha_for_minus_5 :
  alpha_for (-5) = Some 0x83 ∧ alpha_for (-5) ≠ Some 0xff ∧
  alpha_for 0 = Some 0xff.
Proof. repeat split; try reflexivity; discriminate. Qed.

(** C3.  For every [int] brightness at or above the brightness of the last
    table entry, which is 2000, [alpha_for] returns the last entry's alpha,
    which is 0x83. *)
Theorem alpha_for_ceiling (b : Z) (e : ba) :
  in_int b = true →
  last brightness_alpha_lut = Some e →
  brightness e <= b →
  alpha_for b = Some (alpha e) ∧ brightness e = 2000 ∧ alpha e = 0x83.
Proof.
  rewrite in_int_bounds. intros Hb Hlast Hge.
  injection Hlast as <-. simpl in Hge |- *.
  split; [|split; reflexivity].
  destruct (Z.eq_dec b 2000) as [->|Hne]; [reflexivity|].
  apply alpha_for_large. lia.
Qed.

Lemma alpha_for_ceiling_witness :
  alpha_for 5000 = Some (alpha (mk_ba 2000 0x83)) ∧
  brightness (mk_ba 2000 0x83) = 2000 ∧ alpha (mk_ba 2000 0x83) = 0x83.
Proof.
  apply (alpha_for_ceiling 5000 (mk_ba 2000 0x83)).
  - reflexivity.
  - reflexivity.
  - simpl. lia.
Defined.

Example alpha_for_2000 : alpha_for 2000 = Some 0x83.
Proof. reflexivity. Qed.

Example alpha_for_5000 : alpha_for 5000 = Some 0x83.
Proof. reflexivity. Qed.

(** C7.  [getDimAmount] reads the panel brightness endpoint, with 0 standing
    in for a file that cannot be read, computes [alpha_for] of that
    brightness, which always yields a value, and returns that value unless
    the high-brightness-mode endpoint reads 5; then it returns 42 whatever
    the brightness is. *)
Theorem getDimAmount_hbm_override
    (fs : gmap string Z) (arg brightness hbmMode : Z) :
  get fs BRIGHTNESS_PATH 0 = brightness →
  get fs HBM_PATH 0 = hbmMode →
  (∃ a, alpha_for brightness = Some a ∧
        getDimAmount brightness_alpha_lut fs arg
          = Some (if hbmMode =? 5 then 42 else a)) ∧
  (hbmMode = 5 → getDimAmount brightness_alpha_lut fs arg = Some 42) ∧
  (fs !! BRIGHTNESS_PATH = None → brightness = 0) ∧
  (∀ v, fs !! BRIGHTNESS_PATH = Some v → in_int v = true → brightness = v) ∧
  (∀ v, fs !! HBM_PATH = Some v → in_int v = true → hbmMode = v).
Proof.
  intros Hbr Hhbm.
  destruct (alpha_for_total brightness) as [a Ha].
  { rewrite <- Hbr. apply get_in_int. reflexivity. }
  assert (getDimAmount brightness_alpha_lut fs arg
            = Some (if hbmMode =? 5 then 42 else a)) as Hget.
  { unfold getDimAmount. rewrite Hbr, Hhbm.
    unfold alpha_for in Ha. rewrite Ha. reflexivity. }
  split; [exists a; split; [exact Ha|exact Hget]|].
  split; [intros ->; exact Hget|].
  split; [intros Hnone; rewrite <- Hbr; unfold get; rewrite Hnone; reflexivity|].
  split.
  - intros v Hv Hin. rewrite <- Hbr. unfold get. rewrite Hv, Hin. reflexivity.
  - intros v Hv Hin. rewrite <- Hhbm. unfold get. rewrite Hv, Hin. reflexivity.
Qed.

Lemma getDimAmount_hbm_override_witness :
  (∃ a, alpha_for 0 = Some a ∧
        getDimAmount brightness_alpha_lut {[HBM_PATH := 5]} 7
          = Some (if 5 =? 5 then 42 else a)) ∧
  (5 = 5 → getDimAmount brightness_alpha_lut {[HBM_PATH := 5]} 7 = Some 42) ∧
  (({[HBM_PATH := 5]} : gmap string Z) !! BRIGHTNESS_PATH = None → 0 = 0) ∧
  (∀ v, ({[HBM_PATH := 5]} : gmap string Z) !! BRIGHTNESS_PATH = Some v →
        in_int v = true → 0 = v) ∧
  (∀ v, ({[HBM_PATH := 5]} : gmap string Z) !! HBM_PATH = Some v →
        in_int v = true → 5 = v).
Proof.
  apply (getDimAmount_hbm_override {[HBM_PATH := 5]} 7 0 5).
  - vm_compute. reflexivity.
  - vm_compute. reflexivity.
Defined.

(** C9.  For every [int] brightness the computation returns a value: the
    scan stops at an index no larger than the table length, no table access
    leaves the table, no division is by zero and no operation overflows.
    Adjacent entries have strictly increasing brightness, so [xb - xa] is
    never zero. *)
Theorem brightness_to_alpha_never_faults (b : Z) :
  in_int b = true →
  (∃ i v, scan brightness_alpha_lut b 0 (length brightness_alpha_lut) = Some i ∧
          (i ≤ length brightness_alpha_lut)%nat ∧
          alpha_for b = Some v) ∧
  (∀ j lo hi, brightness_alpha_lut !! j = Some lo →
              brightness_alpha_lut !! S j = Some hi →
              brightness lo < brightness hi ∧
              to_i32 (brightness hi) - to_i32 (brightness lo) ≠ 0).
Proof.
  intros Hb. split.
  - destruct (scan_in_bounds brightness_alpha_lut b
                (length brightness_alpha_lut) 0 eq_refl) as [i [Hi Hle]].
    destruct (alpha_for_total b Hb) as [v Hv].
    exists i, v. repeat split; [exact Hi|lia|exact Hv].
  - intros j lo hi Hlo Hhi.
    pose proof (table_strictly_increasing j lo hi Hlo Hhi) as Hlt.
    pose proof (table_brightness_bounds lo (list_elem_of_lookup_2 _ _ _ Hlo)) as Blo.
    pose proof (table_brightness_bounds hi (list_elem_of_lookup_2 _ _ _ Hhi)) as Bhi.
    split; [exact Hlt|].
    unfold to_i32, INT_MAX.
    destruct (Z.leb_spec (brightness hi) 2147483647); [|lia].
    destruct (Z.leb_spec (brightness lo) 2147483647); lia.
Qed.

Lemma brightness_to_alpha_never_faults_witness :
  (∃ i v, scan brightness_alpha_lut (-2147483648) 0
            (length brightness_alpha_lut) = Some i ∧
          (i ≤ length brightness_alpha_lut)%nat ∧
          alpha_for (-2147483648) = Some v) ∧
  (∀ j lo hi, brightness_alpha_lut !! j = Some lo →
              brightness_alpha_lut !! S j = Some hi →
              brightness lo < brightness hi ∧
              to_i32 (brightness hi) - to_i32 (brightness lo) ≠ 0).
Proof.
  apply (brightness_to_alpha_never_faults (-2147483648)). reflexivity.
Defined.

(** C10.  The result of [getDimAmount] does not depend on its argument: two
    calls with any two arguments, on any two states of the file system in
    which the panel-brightness read and the high-brightness-mode read yield
    the same values, return the same dim amount. *)
Theorem getDimAmount_ignores_argument
    (lut : list ba) (fs1 fs2 : gmap string Z) (a1 a2 : Z) :
  get fs1 BRIGHTNESS_PATH 0 = get fs2 BRIGHTNESS_PATH 0 →
  get fs1 HBM_PATH 0 = get fs2 HBM_PATH 0 →
  getDimAmount lut fs1 a1 = getDimAmount lut fs2 a2.
Proof.
  intros Hbr Hhbm. unfold getDimAmount. rewrite Hbr, Hhbm. reflexivity.
Qed.

Lemma getDimAmount_ignores_argument_witness :
  getDimAmount brightness_alpha_lut {[HBM_PATH := 3]} 0 =
  getDimAmount brightness_alpha_lut
    (<[BRIGHTNESS_PATH := 4294967296]> {[HBM_PATH := 3]}) 99.
Proof.
  apply (getDimAmount_ignores_argument brightness_alpha_lut
           {[HBM_PATH := 3]}
           (<[BRIGHTNESS_PATH := 4294967296]> {[HBM_PATH := 3]}) 0 99).
  - vm_compute. reflexivity.
  - vm_compute. reflexivity.
Defined.

End FodProofs.

(** ** Properties of the vibrator sequencing *)

Module VibProofs.
Import CInt Vib Reference.

Lemma rtp_range_agrees : forallb rescale_agrees (Z_range 1 255) = true.
Proof. vm_compute. reflexivity. Qed.

Lemma rtp_input_of_documented (amplitude : Z) :
  1 <= amplitude <= 255 →
  rtp_input_of amplitude = Some (rescale_documented amplitude).
Proof.
  intros Ha.
  pose proof (FodProofs.Z_range_forallb _ _ _ rtp_range_agrees amplitude) as H.
  unfold rescale_agrees in H.
  destruct (rtp_input_of amplitude) as [v|].
  - f_equal. apply Z.eqb_eq. apply H. lia.
  - discriminate H. lia.
Qed.

(** Run a monadic body and bring the write log to a right-nested form. *)
Ltac run_M :=
  cbv [off on on_mode setEffect when_set for_each set store_flag load_flag
       mbind mret M_bind M_ret]; simpl;
  rewrite <- ?app_assoc; simpl.

Lemma convertEffectStrength_documented (strength : EffectStrength) :
  convertEffectStrength strength = gain_byte_documented strength.
Proof. destruct strength; reflexivity. Qed.

(** C4.  For a recognized effect, [performEffect] issues the descriptor's
    writes in the documented order, then the strength-derived gain byte to
    the scale endpoint, and with the session flag set runs the actuation
    start with the nominal duration in waveform mode; it reports success
    with the nominal duration. *)
Theorem performEffect_recognized
    (effect : Effect) (strength : EffectStrength) (st : state) (d : descriptor) :
  descriptor_of effect = Some d →
  ∃ st',
    performEffect effect strength st = Some ((OK, d_time_ms d), st') ∧
    on_mode (d_time_ms d) true
      (mk_state true
         (writes st ++ descriptor_writes d ++
          [(SCALE_PATH, VByte (gain_byte_documented strength))]))
      = Some (OK, st') ∧
    mShouldSetBrightness st' = true ∧
    writes st' =
      writes st ++ descriptor_writes d ++
      [(SCALE_PATH, VByte (gain_byte_documented strength));
       (CTRL_LOOP_PATH, VByte 1);
       (DURATION_PATH, VInt (d_time_ms d));
       (MODE_PATH, VStr "waveform");
       (LRA_WAVE_SHAPE_PATH, VByte 1);
       (BRIGHTNESS_PATH, VInt 1)].
Proof.
  intros Hd.
  destruct effect; simpl in Hd; simplify_eq; eexists;
    unfold performEffect, descriptor_writes;
    rewrite convertEffectStrength_documented; simpl;
    run_M; repeat split; reflexivity.
Qed.

Lemma performEffect_recognized_witness :
  ∃ st',
    performEffect POP MEDIUM (mk_state false []) = Some ((OK, 5), st') ∧
    on_mode 5 true
      (mk_state true
         ([] ++ descriptor_writes (mk_descriptor [] [] (Some 0) 5) ++
          [(SCALE_PATH, VByte (gain_byte_documented MEDIUM))]))
      = Some (OK, st') ∧
    mShouldSetBrightness st' = true ∧
    writes st' =
      [] ++ descriptor_writes (mk_descriptor [] [] (Some 0) 5) ++
      [(SCALE_PATH, VByte (gain_byte_documented MEDIUM));
       (CTRL_LOOP_PATH, VByte 1);
       (DURATION_PATH, VInt 5);
       (MODE_PATH, VStr "waveform");
       (LRA_WAVE_SHAPE_PATH, VByte 1);
       (BRIGHTNESS_PATH, VInt 1)].
Proof.
  apply (performEffect_recognized POP MEDIUM (mk_state false [])
           (mk_descriptor [] [] (Some 0) 5)).
  reflexivity.
Defined.

(** C5.  For an effect the switch does not name, [performEffect] reports
    an unsupported operation with duration 0, clears the session flag and
    issues no write. *)
Theorem performEffect_unrecognized
    (raw : Z) (strength : EffectStrength) (st : state) :
  descriptor_of (Effect_other raw) = None ∧
  performEffect (Effect_other raw) strength st =
    Some ((UNSUPPORTED_OPERATION, 0), mk_state false (writes st)).
Proof. split; reflexivity. Qed.

(** C6.  [setAmplitude] reports an invalid argument exactly for amplitude
    0 and then leaves the state as it was; for an amplitude from 1 to 255
    it reports success and writes [round((amplitude - 1) / 254 * 127)] to
    the realtime-playback-input endpoint: 127 for 255 and 0 for 1. *)
Theorem setAmplitude_rescales (amplitude : Z) (st : state) :
  0 <= amplitude <= 255 →
  ∃ status st',
    setAmplitude amplitude st = Some (status, st') ∧
    (status = BAD_VALUE ↔ amplitude = 0) ∧
    (amplitude = 0 → st' = st) ∧
    (1 <= amplitude →
     status = OK ∧
     st' = mk_state (mShouldSetBrightness st)
             (writes st ++
              [(RTP_INPUT_PATH, VInt (rescale_documented amplitude))])) ∧
    rescale_documented 255 = 127 ∧ rescale_documented 1 = 0.
Proof.
  intros Ha. unfold setAmplitude.
  destruct (Z.eqb_spec amplitude 0) as [->|Hne].
  - exists BAD_VALUE, st. repeat split; try reflexivity; try lia.
  - rewrite rtp_input_of_documented by lia.
    exists OK. eexists. split; [reflexivity|].
    repeat split; try reflexivity; try lia; try discriminate.
Qed.

Lemma setAmplitude_rescales_witness :
  ∃ status st',
    setAmplitude 255 (mk_state false []) = Some (status, st') ∧
    (status = BAD_VALUE ↔ 255 = 0) ∧
    (255 = 0 → st' = mk_state false []) ∧
    (1 <= 255 →
     status = OK ∧
     st' = mk_state false
             ([] ++ [(RTP_INPUT_PATH, VInt (rescale_documented 255))])) ∧
    rescale_documented 255 = 127 ∧ rescale_documented 1 = 0.
Proof.
  apply (setAmplitude_rescales 255 (mk_state false [])). lia.
Defined.

Example setAmplitude_0 (st : state) : setAmplitude 0 st = Some (BAD_VALUE, st).
Proof. reflexivity. Qed.

Example setAmplitude_255 :
  setAmplitude 255 (mk_state false []) =
    Some (OK, mk_state false [(RTP_INPUT_PATH, VInt 127)]).
Proof. reflexivity. Qed.

Example setAmplitude_1 :
  setAmplitude 1 (mk_state false []) =
    Some (OK, mk_state false [(RTP_INPUT_PATH, VInt 0)]).
Proof. reflexivity. Qed.

(** C8.  [off] writes 0 to the brightness channel and then 0 to the
    activate channel and reports success, whatever the session flag is and
    whichever channel the preceding [on] drove; it leaves the flag alone,
    a second call issues the same two writes, and the endpoints hold the
    same contents after two calls as after one. *)
Theorem off_clears_both_channels (st : state) :
  off st = Some (OK, mk_state (mShouldSetBrightness st)
                       (writes st ++ clear_channels)) ∧
  (off ;; off) st =
    Some (OK, mk_state (mShouldSetBrightness st)
                ((writes st ++ clear_channels) ++ clear_channels)) ∧
  (∀ timeoutMs isWaveform, ∃ st1,
      on_mode timeoutMs isWaveform st = Some (OK, st1) ∧
      mShouldSetBrightness st1 = mShouldSetBrightness st ∧
      off st1 = Some (OK, mk_state (mShouldSetBrightness st1)
                            (writes st1 ++ clear_channels))) ∧
  (∀ fs : gmap string value,
      apply_writes fs (clear_channels ++ clear_channels)
        = apply_writes fs clear_channels ∧
      apply_writes fs clear_channels !! BRIGHTNESS_PATH = Some (VInt 0) ∧
      apply_writes fs clear_channels !! ACTIVATE_PATH = Some (VInt 0)).
Proof.
  unfold clear_channels.
  split; [run_M; reflexivity|]. split; [run_M; reflexivity|]. split.
  - intros timeoutMs isWaveform.
    destruct st as [flag ws].
    destruct isWaveform, flag; eexists;
      (split; [reflexivity|]); (split; [reflexivity|]);
      run_M; reflexivity.
  - intros fs. unfold apply_writes, clear_channels. simpl. repeat split.
    + apply map_eq. intros k. rewrite !lookup_insert.
      repeat case_decide; reflexivity.
    + rewrite lookup_insert_ne by discriminate. apply lookup_insert_eq.
    + apply lookup_insert_eq.
Qed.

End VibProofs.

(** ** Further properties of the dim-alpha curve *)

Module FodExtra.
Import CInt Fod Reference Checks.

Lemma scan_post (lut : list ba) (b : Z) :
  ∀ remaining i k, (i + remaining = length lut)%nat →
  scan lut b i remaining = Some k →
  (i ≤ k ≤ length lut)%nat ∧
  (∀ j e, (i ≤ j < k)%nat → lut !! j = Some e → brightness e < to_u32 b) ∧
  (∀ e, lut !! k = Some e → to_u32 b <= brightness e).
Proof.
  induction remaining as [|n IH]; intros i k Hlen Hscan; simpl in Hscan.
  - injection Hscan as <-. split; [lia|]. split.
    + intros j e Hj. lia.
    + intros e He. apply lookup_lt_Some in He. lia.
  - destruct (lut !! i) as [e0|] eqn:He0; [|discriminate Hscan].
    simpl in Hscan.
    destruct (Z.leb_spec (to_u32 b) (brightness e0)) as [Hle|Hgt].
    + injection Hscan as <-. split; [lia|]. split.
      * intros j e Hj. lia.
      * intros e He. congruence.
    + destruct (IH (S i) k) as [Hk [Hbelow Hat]]; [lia|exact Hscan|].
      split; [lia|]. split; [|exact Hat].
      intros j e Hj Hlk.
      destruct (decide (j = i)) as [->|Hne].
      * congruence.
      * apply (Hbelow j e); [lia|exact Hlk].
Qed.

(** X1.  For any table and any argument the scan ends at an index [k] no
    larger than the table length; every entry before [k] has a brightness
    below the argument converted to [std::uint32_t], and the entry at [k],
    when there is one, has a brightness at or above it. *)
Theorem scan_finds_first_index (lut : list ba) (b : Z) :
  ∃ k, scan lut b 0 (length lut) = Some k ∧
       (k ≤ length lut)%nat ∧
       (∀ j e, (j < k)%nat → lut !! j = Some e → brightness e < to_u32 b) ∧
       (∀ e, lut !! k = Some e → to_u32 b <= brightness e).
Proof.
  destruct (FodProofs.scan_in_bounds lut b (length lut) 0 eq_refl) as [k [Hk _]].
  destruct (scan_post lut b (length lut) 0 k eq_refl Hk) as [Hle [Hbelow Hat]].
  exists k. split; [exact Hk|]. split; [lia|]. split; [|exact Hat].
  intros j e Hj. apply Hbelow. lia.
Qed.

Lemma floor_branch (lut : list ba) (b : Z) (e : ba) :
  lut !! 0%nat = Some e →
  to_u32 b <= brightness e →
  brightness_to_alpha lut b = Some (to_i32 (alpha e)).
Proof.
  intros He Hle. unfold brightness_to_alpha.
  destruct lut as [|e' lut']; [discriminate He|].
  simpl in He. injection He as ->. simpl.
  destruct (Z.leb_spec (to_u32 b) (brightness e)); [reflexivity|lia].
Qed.

Lemma ceiling_branch (lut : list ba) (b : Z) (e : ba) :
  last lut = Some e →
  (∀ e', e' ∈ lut → brightness e' < to_u32 b) →
  brightness_to_alpha lut b = Some (to_i32 (alpha e)).
Proof.
  intros Hlast Hlt. unfold brightness_to_alpha.
  rewrite (FodProofs.scan_exhausts lut b Hlt (length lut) 0 eq_refl). simpl.
  assert (0 < length lut)%nat as Hpos.
  { destruct lut; [discriminate Hlast|simpl; lia]. }
  destruct (decide (length lut = 0%nat)) as [H0|_]; [lia|].
  destruct (decide (length lut = length lut)) as [_|Hne]; [|congruence].
  rewrite last_lookup in Hlast.
  replace (length lut - 1)%nat with (Nat.pred (length lut)) by lia.
  rewrite Hlast. reflexivity.
Qed.

(** X2.  For any table whose first entry has a brightness at or above the
    converted argument, [brightness_to_alpha] returns the first entry's
    alpha. *)
Theorem brightness_to_alpha_floor (lut : list ba) (b : Z) (e : ba) :
  lut !! 0%nat = Some e →
  to_u32 b <= brightness e →
  brightness_to_alpha lut b = Some (to_i32 (alpha e)).
Proof. exact (floor_branch lut b e). Qed.

Lemma brightness_to_alpha_floor_witness :
  brightness_to_alpha [mk_ba 7 200; mk_ba 9 100] 7 = Some (to_i32 200).
Proof.
  apply (brightness_to_alpha_floor [mk_ba 7 200; mk_ba 9 100] 7 (mk_ba 7 200)).
  - reflexivity.
  - vm_compute. discriminate.
Defined.

(** X3.  For any table all of whose entries have a brightness below the
    converted argument, [brightness_to_alpha] returns the last entry's
    alpha. *)
Theorem brightness_to_alpha_ceiling (lut : list ba) (b : Z) (e : ba) :
  last lut = Some e →
  (∀ e', e' ∈ lut → brightness e' < to_u32 b) →
  brightness_to_alpha lut b = Some (to_i32 (alpha e)).
Proof. exact (ceiling_branch lut b e). Qed.

Lemma brightness_to_alpha_ceiling_witness :
  brightness_to_alpha [mk_ba 7 200; mk_ba 9 100] (-1) = Some (to_i32 100).
Proof.
  apply (brightness_to_alpha_ceiling [mk_ba 7 200; mk_ba 9 100] (-1) (mk_ba 9 100)).
  - reflexivity.
  - intros e' He'. apply list_elem_of_In in He'. simpl in He'.
    destruct He' as [<-|[<-|[]]]; vm_compute; reflexivity.
Defined.

(** X4.  Before the constructor has copied the constants, the table is all
    zeros and every brightness maps to alpha 0. *)
Theorem zero_table_maps_to_zero (b : Z) :
  brightness_to_alpha brightness_alpha_lut_zero b = Some 0.
Proof.
  assert (0 <= to_u32 b) as Hnn.
  { unfold to_u32, UINT_MODULUS. apply Z.mod_pos_bound. lia. }
  destruct (Z.eq_dec (to_u32 b) 0) as [H0|Hne].
  - apply (floor_branch _ b (mk_ba 0 0)); [reflexivity|simpl; lia].
  - apply (ceiling_branch _ b (mk_ba 0 0)); [reflexivity|].
    intros e' He'. unfold brightness_alpha_lut_zero in He'.
    apply elem_of_replicate in He' as [-> _]. simpl. lia.
Qed.

Lemma quot_range (a b c : Z) : b ≠ 0 → - c <= a <= c → - c <= a `quot` b <= c.
Proof.
  intros Hb Ha.
  assert (Z.abs (a `quot` b) <= Z.abs a) as H.
  { rewrite <- Z.quot_abs by exact Hb.
    apply Z.quot_le_upper_bound; [lia|]. nia. }
  lia.
Qed.

Lemma ck_small (z : Z) : - 2147483647 <= z <= 2147483647 → ck z = Some z.
Proof.
  intros Hz. unfold ck, in_int, INT_MIN, INT_MAX.
  destruct (Z.leb_spec (-2147483648) z); [|lia].
  destruct (Z.leb_spec z 2147483647); [reflexivity|lia].
Qed.

Lemma rem2_range (a : Z) : - 1 <= a `rem` 2 <= 1.
Proof. pose proof (Z.rem_bound_abs a 2). lia. Qed.

Lemma interpolate_formula (x xa xb ya yb : Z) :
  0 <= x <= 16384 → 0 <= xa <= 16384 → 0 <= xb <= 16384 →
  0 <= ya <= 16384 → 0 <= yb <= 16384 → xa ≠ xb →
  interpolate x xa xb ya yb =
    Some (blend_reversed_divisor x (mk_ba xa ya) (mk_ba xb yb)).
Proof.
  intros Hx Hxa Hxb Hya Hyb Hne.
  unfold blend_reversed_divisor, interpolate, sub, mul, div, rem, add, truthy.
  simpl.
  assert (xb - xa ≠ 0) as Hdx by lia.
  assert (xa - xb ≠ 0) as Hxd by lia.
  pose proof (proj2 (Z.eqb_neq _ _) Hdx) as Hdx0.
  pose proof (proj2 (Z.eqb_neq _ _) Hxd) as Hxd0.
  assert (- 16384 <= yb - ya <= 16384) as Bdy by lia.
  assert (- 16384 <= x - xa <= 16384) as Bt by lia.
  assert (- 16384 <= x - xb <= 16384) as Bu by lia.
  assert (- 16384 <= xb - xa <= 16384) as Bdx by lia.
  assert (- 16384 <= xa - xb <= 16384) as Bxd by lia.
  set (dy := yb - ya) in *. set (dx := xb - xa) in *.
  set (t := x - xa) in *. set (u := x - xb) in *. set (xd := xa - xb) in *.
  clearbody dy dx t u xd.
  assert (- 536870912 <= 2 * dy * t <= 536870912) as Bm2 by nia.
  assert (- 536870912 <= 2 * t * u <= 536870912) as Bn2 by nia.
  pose proof (quot_range (2 * dy * t) dx 536870912 Hdx Bm2) as Bbf.
  pose proof (quot_range _ 2 536870912 ltac:(lia) Bbf) as Bfactor.
  pose proof (rem2_range ((2 * dy * t) `quot` dx)) as Bplus.
  assert (dy ≠ 0 → - 536870912 <= (2 * t * u) `quot` dy <= 536870912) as Bq1
    by (intros Hdy; apply (quot_range _ dy 536870912 Hdy Bn2)).
  assert (dy ≠ 0 →
          - 536870912 <= ((2 * t * u) `quot` dy) `quot` xd <= 536870912) as Bs
    by (intros Hdy; apply (quot_range _ xd 536870912 Hxd (Bq1 Hdy))).
  destruct (Z.eqb_spec dy 0) as [Hdy0|Hdy]; cbn [negb andb].
  - clear Bq1 Bs. pose proof (proj2 (Z.eqb_eq dy 0) Hdy0) as Edy.
    repeat first
      [ rewrite Hdx0 | rewrite Hxd0 | rewrite Edy
      | progress cbn [mbind option_bind negb andb]
      | match goal with
        | |- context [ck ?z] => rewrite (ck_small z) by lia
        end ].
    reflexivity.
  - specialize (Bq1 Hdy). specialize (Bs Hdy).
    pose proof (proj2 (Z.eqb_neq dy 0) Hdy) as Edy.
    repeat first
      [ rewrite Hdx0 | rewrite Hxd0 | rewrite Edy
      | progress cbn [mbind option_bind negb andb]
      | match goal with
        | |- context [ck ?z] => rewrite (ck_small z) by lia
        end ].
    reflexivity.
Qed.

(** X5.  For operands between 0 and 16384 with [xa ≠ xb], [interpolate]
    neither overflows nor divides by zero, and its result is the blend
    [ya + bf/2 + bf%2 + 2*(x-xa)*(x-xb)/(yb-ya)/(xa-xb)] with
    [bf = 2*(yb-ya)*(x-xa)/(xb-xa)], every division truncating. *)
Theorem interpolate_exact (x xa xb ya yb : Z) :
  0 <= x <= 16384 → 0 <= xa <= 16384 → 0 <= xb <= 16384 →
  0 <= ya <= 16384 → 0 <= yb <= 16384 → xa ≠ xb →
  interpolate x xa xb ya yb =
    Some (blend_reversed_divisor x (mk_ba xa ya) (mk_ba xb yb)).
Proof. exact (interpolate_formula x xa xb ya yb). Qed.

Lemma interpolate_exact_witness :
  interpolate 85 70 100 197 185 =
    Some (blend_reversed_divisor 85 (mk_ba 70 197) (mk_ba 100 185)).
Proof. apply (interpolate_exact 85 70 100 197 185); lia. Defined.

(** X6.  Under the same bounds [interpolate] passes through both end
    points: it returns [ya] at [x = xa] and [yb] at [x = xb]. *)
Theorem interpolate_end_points (xa xb ya yb : Z) :
  0 <= xa <= 16384 → 0 <= xb <= 16384 →
  0 <= ya <= 16384 → 0 <= yb <= 16384 → xa ≠ xb →
  interpolate xa xa xb ya yb = Some ya ∧
  interpolate xb xa xb ya yb = Some yb.
Proof.
  intros Hxa Hxb Hya Hyb Hne. split.
  - rewrite interpolate_formula by (assumption || lia). f_equal.
    unfold blend_reversed_divisor. simpl.
    rewrite Z.sub_diag, !Z.mul_0_r, Z.mul_0_l.
    rewrite (Z.quot_0_l (xb - xa)) by lia.
    change (0 `quot` 2) with 0. change (0 `rem` 2) with 0.
    destruct (negb (xb - xa =? 0) && negb (yb - ya =? 0)) eqn:Hg; [|lia].
    apply andb_true_iff in Hg as [_ Hg]. apply negb_true_iff in Hg.
    apply Z.eqb_neq in Hg.
    rewrite (Z.quot_0_l (yb - ya)) by exact Hg.
    rewrite (Z.quot_0_l (xa - xb)) by lia. lia.
  - rewrite interpolate_formula by (assumption || lia). f_equal.
    unfold blend_reversed_divisor. simpl.
    rewrite Z.sub_diag, Z.mul_0_r.
    rewrite (Z.quot_mul (2 * (yb - ya)) (xb - xa)) by lia.
    rewrite (Z.mul_comm 2 (yb - ya)).
    rewrite Z.quot_mul by lia. rewrite Z.rem_mul by lia.
    destruct (negb (xb - xa =? 0) && negb (yb - ya =? 0)) eqn:Hg; [|lia].
    apply andb_true_iff in Hg as [_ Hg]. apply negb_true_iff in Hg.
    apply Z.eqb_neq in Hg.
    rewrite (Z.quot_0_l (yb - ya)) by exact Hg.
    rewrite (Z.quot_0_l (xa - xb)) by lia. lia.
Qed.

Lemma interpolate_end_points_witness :
  interpolate 70 70 100 197 185 = Some 197 ∧
  interpolate 100 70 100 197 185 = Some 185.
Proof. apply (interpolate_end_points 70 100 197 185); lia. Defined.

(** X7.  With [xa = xb] the first division of [interpolate] is by zero
    whatever the other arguments are: the guard protects only the correction
    term. *)
Theorem interpolate_equal_abscissae_faults (x xa ya yb : Z) :
  interpolate x xa xa ya yb = None.
Proof.
  unfold interpolate.
  destruct (sub yb ya) as [dy|]; [|reflexivity]. cbn [mbind option_bind].
  destruct (mul 2 dy) as [m1|]; [|reflexivity]. cbn [mbind option_bind].
  destruct (sub x xa) as [t|]; [|reflexivity]. cbn [mbind option_bind].
  destruct (mul m1 t) as [m2|]; [|reflexivity]. cbn [mbind option_bind].
  unfold sub. rewrite !Z.sub_diag. reflexivity.
Qed.

Lemma to_i32_small (u : Z) : 0 <= u <= 16384 → to_i32 u = u.
Proof.
  intros Hu. unfold to_i32, INT_MAX.
  destruct (Z.leb_spec u 2147483647); [reflexivity|lia].
Qed.

(** X8.  For any table whose brightness and alpha values lie between 0 and
    16384: when the scan stops at an index [i] strictly inside the table,
    the argument lies in the segment that ends at [i], and the result is the
    blend of the entries [i - 1] and [i]. *)
Theorem brightness_to_alpha_blend
    (lut : list ba) (b : Z) (i : nat) (lo hi : ba) :
  in_int b = true →
  (∀ e, e ∈ lut → 0 <= brightness e <= 16384 ∧ 0 <= alpha e <= 16384) →
  scan lut b 0 (length lut) = Some i →
  (0 < i < length lut)%nat →
  lut !! (i - 1)%nat = Some lo →
  lut !! i = Some hi →
  brightness lo < b <= brightness hi ∧
  brightness_to_alpha lut b = Some (blend_reversed_divisor b lo hi).
Proof.
  intros Hb Hsmall Hscan Hi Hlo Hhi.
  apply FodProofs.in_int_bounds in Hb.
  destruct (scan_post lut b (length lut) 0 i eq_refl Hscan) as [_ [Hbelow Hat]].
  pose proof (Hbelow (i - 1)%nat lo ltac:(lia) Hlo) as Hgt.
  pose proof (Hat hi Hhi) as Hle.
  destruct (Hsmall lo (list_elem_of_lookup_2 _ _ _ Hlo)) as [Blo Alo].
  destruct (Hsmall hi (list_elem_of_lookup_2 _ _ _ Hhi)) as [Bhi Ahi].
  assert (0 <= b) as Hnn.
  { destruct (Z_lt_le_dec b 0) as [Hneg|]; [|assumption].
    rewrite FodProofs.to_u32_negative in Hle by lia.
    unfold INT_MIN, UINT_MODULUS in *. lia. }
  rewrite FodProofs.to_u32_nonneg in Hgt, Hle by lia.
  split; [lia|].
  unfold brightness_to_alpha. rewrite Hscan. cbn [mbind option_bind].
  destruct (decide (i = 0%nat)) as [|_]; [lia|].
  destruct (decide (i = length lut)) as [|_]; [lia|].
  rewrite Hlo, Hhi. cbn [mbind option_bind].
  rewrite !to_i32_small by assumption.
  rewrite interpolate_formula by lia.
  destruct lo, hi. reflexivity.
Qed.

Lemma brightness_to_alpha_blend_witness :
  10 < 14 <= 20 ∧
  brightness_to_alpha [mk_ba 10 200; mk_ba 20 100] 14 =
    Some (blend_reversed_divisor 14 (mk_ba 10 200) (mk_ba 20 100)).
Proof.
  apply (brightness_to_alpha_blend [mk_ba 10 200; mk_ba 20 100] 14 1
           (mk_ba 10 200) (mk_ba 20 100)).
  - reflexivity.
  - intros e He. apply list_elem_of_In in He. simpl in He.
    destruct He as [<-|[<-|[]]]; simpl; lia.
  - reflexivity.
  - simpl. lia.
  - reflexivity.
  - reflexivity.
Defined.

(** X9.  The curve passes through every point of the table: at the
    brightness of an entry, [alpha_for] returns that entry's alpha. *)
Theorem alpha_for_table_points (k : nat) (e : ba) :
  brightness_alpha_lut !! k = Some e →
  alpha_for (brightness e) = Some (alpha e).
Proof.
  intros He.
  do 21 (destruct k as [|k]; [simpl in He; simplify_eq; reflexivity|]).
  discriminate He.
Qed.

Lemma alpha_for_table_points_witness :
  alpha_for (brightness (mk_ba 227 0x99)) = Some (alpha (mk_ba 227 0x99)).
Proof. apply (alpha_for_table_points 13 (mk_ba 227 0x99)). reflexivity. Defined.

Lemma alpha_range_checked : forallb alpha_in_range (Z_range 0 2001) = true.
Proof. vm_compute. reflexivity. Qed.

Lemma alpha_for_bounded (b : Z) :
  in_int b = true → ∃ v, alpha_for b = Some v ∧ 42 <= v <= 255.
Proof.
  rewrite FodProofs.in_int_bounds. intros Hb.
  destruct (Z_lt_le_dec b 0) as [Hneg|Hpos].
  - exists 0x83. split; [apply FodProofs.alpha_for_negative; lia|lia].
  - destruct (Z_le_gt_dec b 2000) as [Hin|Hout].
    + pose proof (FodProofs.Z_range_forallb _ _ _ alpha_range_checked b) as H.
      unfold alpha_in_range in H.
      destruct (alpha_for b) as [v|]; [|discriminate H; lia].
      exists v. split; [reflexivity|].
      specialize (H ltac:(lia)). apply andb_true_iff in H as [H1 H2].
      apply Z.leb_le in H1, H2. lia.
    + exists 0x83. split; [apply FodProofs.alpha_for_large; lia|lia].
Qed.

(** X10.  For every [int] brightness the curve returns a value between
    0x2a and 0xff. *)
Theorem alpha_for_range (b : Z) :
  in_int b = true → ∃ v, alpha_for b = Some v ∧ 0x2a <= v <= 0xff.
Proof. exact (alpha_for_bounded b). Qed.

Lemma alpha_for_range_witness : ∃ v, alpha_for 1500 = Some v ∧ 0x2a <= v <= 0xff.
Proof. apply (alpha_for_range 1500). reflexivity. Defined.

(** X11.  Every negative [int] brightness is compared as a large unsigned
    number, so the curve returns the alpha of the last table entry, 0x83,
    although brightness 0 returns the alpha of the first, 0xff. *)
Theorem alpha_for_negative_is_last (b : Z) :
  INT_MIN <= b < 0 →
  alpha_for b = Some 0x83 ∧
  last brightness_alpha_lut = Some (mk_ba 2000 0x83) ∧
  alpha_for 0 = Some 0xff.
Proof.
  intros Hb. split; [apply FodProofs.alpha_for_negative; exact Hb|].
  split; reflexivity.
Qed.

Lemma alpha_for_negative_is_last_witness :
  alpha_for (-1) = Some 0x83 ∧
  last brightness_alpha_lut = Some (mk_ba 2000 0x83) ∧
  alpha_for 0 = Some 0xff.
Proof. apply (alpha_for_negative_is_last (-1)). unfold INT_MIN. lia. Defined.

(** X12.  The constructor leaves the table equal to the constant table
    whatever the 21 entries held before. *)
Theorem ctor_overwrites_table (lut : list ba) :
  length lut = 21%nat →
  FingerprintInscreen_ctor lut = Some brightness_alpha_lut_1.
Proof.
  intros Hlen.
  do 21 (destruct lut as [|? lut]; [discriminate Hlen|]).
  destruct lut; [reflexivity|discriminate Hlen].
Qed.

Lemma ctor_overwrites_table_witness :
  FingerprintInscreen_ctor (replicate 21 (mk_ba 9 9)) = Some brightness_alpha_lut_1.
Proof. apply (ctor_overwrites_table (replicate 21 (mk_ba 9 9))). reflexivity. Defined.

(** X13.  Whatever the two endpoints hold, missing or unparsable files
    included, [getDimAmount] returns a value between 42 and 255. *)
Theorem getDimAmount_range (fs : gmap string Z) (arg : Z) :
  ∃ v, getDimAmount brightness_alpha_lut fs arg = Some v ∧ 42 <= v <= 255.
Proof.
  unfold getDimAmount.
  destruct (alpha_for_bounded (get fs BRIGHTNESS_PATH 0)) as [a [Ha Hr]].
  { apply FodProofs.get_in_int. reflexivity. }
  unfold alpha_for in Ha. rewrite Ha. cbn [mbind option_bind].
  destruct (get fs HBM_PATH 0 =? 5); eexists; (split; [reflexivity|lia]).
Qed.

(** X14.  When the brightness file is missing, or holds a number that
    [int] cannot represent, and the high-brightness mode does not read 5,
    [getDimAmount] returns 255: the brightness defaults to 0. *)
Theorem getDimAmount_unreadable_brightness (fs : gmap string Z) (arg : Z) :
  (fs !! BRIGHTNESS_PATH = None ∨
   ∃ v, fs !! BRIGHTNESS_PATH = Some v ∧ in_int v = false) →
  get fs HBM_PATH 0 ≠ 5 →
  getDimAmount brightness_alpha_lut fs arg = Some 255.
Proof.
  intros Hbr Hhbm.
  assert (get fs BRIGHTNESS_PATH 0 = 0) as H0.
  { unfold get. destruct Hbr as [->|[v [-> Hv]]]; [reflexivity|].
    rewrite Hv. reflexivity. }
  unfold getDimAmount. rewrite H0.
  change (brightness_to_alpha brightness_alpha_lut 0) with (Some 255).
  cbn [mbind option_bind].
  destruct (Z.eqb_spec (get fs HBM_PATH 0) 5); [contradiction|reflexivity].
Qed.

Lemma getDimAmount_unreadable_brightness_witness :
  getDimAmount brightness_alpha_lut {[BRIGHTNESS_PATH := 4294967296]} 0 = Some 255.
Proof.
  apply (getDimAmount_unreadable_brightness {[BRIGHTNESS_PATH := 4294967296]} 0).
  - right. exists 4294967296. split; vm_compute; reflexivity.
  - vm_compute. discriminate.
Defined.

End FodExtra.

(** ** Properties of the request handlers *)

Module FodHalExtra.
Import CInt Fod FodHal.

(** X15.  [handleAcquired] returns [true] exactly when a callback is
    registered, the acquired code is the vendor code 6, the FOD circle is
    visible and the vendor code is 0 or 1; it then makes one call on the
    registered callback, [onFingerDown] for 0 and [onFingerUp] for 1.
    Otherwise it changes nothing.  The members are never changed. *)
Theorem handleAcquired_delivers (acquiredInfo vendorCode : Z) (s : service) :
  let r := handleAcquired acquiredInfo vendorCode s in
  (r.1 = true ↔
     is_Some (mCallback s) ∧ acquiredInfo = 6 ∧ mFodCircleVisible s = true ∧
     (vendorCode = 0 ∨ vendorCode = 1)) ∧
  mFodCircleVisible r.2 = mFodCircleVisible s ∧
  mCallback r.2 = mCallback s ∧
  (r.1 = false → r.2 = s) ∧
  (∀ callback, r.1 = true → mCallback s = Some callback →
     calls r.2 = calls s ++ [if vendorCode =? 0 then onFingerDown callback
                             else onFingerUp callback]).
Proof.
  unfold handleAcquired, FINGERPRINT_ACQUIRED_VENDOR.
  destruct s as [visible [cb|] cs]; simpl.
  - destruct (Z.eqb_spec acquiredInfo 6) as [->|Ha];
      destruct visible; simpl;
      destruct (Z.eqb_spec vendorCode 0) as [->|H0]; simpl;
      try destruct (Z.eqb_spec vendorCode 1) as [->|H1]; simpl;
      (split; [split; [intros ?; try discriminate; eauto 10
                      |intros (? & ? & ? & ?); try reflexivity;
                       try discriminate; try lia]|]);
      repeat split; try reflexivity; try discriminate;
      intros; simplify_eq; reflexivity.
  - split; [split; [discriminate|intros ([? ?] & _); discriminate]|].
    repeat split; try reflexivity. discriminate.
Qed.

(** X16.  [onHideFODView] makes the same calls as [onRelease], under either
    build flag, and differs only in clearing [mFodCircleVisible], which
    [onRelease] leaves alone. *)
Theorem onHideFODView_releases (FOD_HBM : Z) (s : service) :
  calls (onHideFODView FOD_HBM s) = calls (onRelease FOD_HBM s) ∧
  mCallback (onHideFODView FOD_HBM s) = mCallback (onRelease FOD_HBM s) ∧
  mFodCircleVisible (onHideFODView FOD_HBM s) = false ∧
  mFodCircleVisible (onRelease FOD_HBM s) = mFodCircleVisible s.
Proof.
  unfold onHideFODView, onRelease, set_hbm.
  destruct (truthy FOD_HBM); repeat split; reflexivity.
Qed.

Lemma serve_all_cons (FOD_HBM : Z) (s : service) (r : request) (rs : list request) :
  serve_all FOD_HBM s (r :: rs) = serve_all FOD_HBM (serve FOD_HBM s r) rs.
Proof. reflexivity. Qed.

Lemma filter_snoc_false {A : Type} (f : A → bool) (l : list A) (x : A) :
  f x = false → List.filter f (l ++ [x]) = List.filter f l.
Proof.
  intros Hx. rewrite List.filter_app. simpl. rewrite Hx. apply app_nil_r.
Qed.

(** Calls that are not finger events leave the finger events as they are. *)
Ltac quiet :=
  unfold onStartEnroll, onFinishEnroll, onPress, onRelease, onHideFODView,
    onShowFODView, setLongPressEnabled, setCallback, set_hbm, emit;
  repeat match goal with
         | |- context [truthy ?z] => destruct (truthy z)
         end;
  cbn [calls mFodCircleVisible mCallback];
  rewrite ?filter_snoc_false by reflexivity.

Lemma serve_hidden (FOD_HBM : Z) (s : service) (r : request) :
  mFodCircleVisible s = false → r ≠ ShowFODView →
  mFodCircleVisible (serve FOD_HBM s r) = false ∧
  List.filter is_finger_event (calls (serve FOD_HBM s r))
    = List.filter is_finger_event (calls s).
Proof.
  intros Hv Hr. destruct r; try contradiction; cbn [serve];
    try (quiet; (split; [assumption || reflexivity|reflexivity])).
  destruct s as [visible cb cs]. cbn [mFodCircleVisible] in Hv. subst visible.
  unfold handleAcquired. cbn [mCallback mFodCircleVisible andb].
  destruct cb; [|split; reflexivity].
  destruct (acquiredInfo =? _); split; reflexivity.
Qed.

(** X17.  While the FOD view is hidden no finger event reaches the callback:
    starting with [mFodCircleVisible] false, a run of requests without
    [onShowFODView] adds no [onFingerDown] and no [onFingerUp]. *)
Theorem hidden_view_sends_no_finger_event
    (FOD_HBM : Z) (rs : list request) (s : service) :
  mFodCircleVisible s = false →
  ShowFODView ∉ rs →
  List.filter is_finger_event (calls (serve_all FOD_HBM s rs))
    = List.filter is_finger_event (calls s).
Proof.
  revert s. induction rs as [|r rs IH]; intros s Hv Hno; [reflexivity|].
  rewrite serve_all_cons.
  apply not_elem_of_cons in Hno as [Hr Hrs].
  destruct (serve_hidden FOD_HBM s r Hv) as [Hv' Hf]; [congruence|].
  rewrite IH by assumption. exact Hf.
Qed.

Lemma hidden_view_sends_no_finger_event_witness :
  List.filter is_finger_event
    (calls (serve_all 1 (mk_service false (Some 7%nat) [])
              [Press; Acquired 6 0; Release; Acquired 6 1; HideFODView]))
  = List.filter is_finger_event (calls (mk_service false (Some 7%nat) [])).
Proof.
  apply (hidden_view_sends_no_finger_event 1
           [Press; Acquired 6 0; Release; Acquired 6 1; HideFODView]
           (mk_service false (Some 7%nat) [])).
  - reflexivity.
  - intros H. apply list_elem_of_In in H. simpl in H.
    repeat (destruct H as [H|H]; [discriminate H|]). exact H.
Defined.

Lemma serve_no_callback (FOD_HBM : Z) (s : service) (r : request) :
  mCallback s = None → (∀ callback, r ≠ Callback (Some callback)) →
  mCallback (serve FOD_HBM s r) = None ∧
  List.filter is_finger_event (calls (serve FOD_HBM s r))
    = List.filter is_finger_event (calls s).
Proof.
  intros Hc Hr. destruct r; cbn [serve];
    try (quiet; (split; [assumption || reflexivity|reflexivity])).
  - unfold handleAcquired. rewrite Hc. split; [exact Hc|reflexivity].
  - destruct callback as [cb|]; [destruct (Hr cb); reflexivity|].
    split; reflexivity.
Qed.

(** X18.  Without a registered callback no finger event is sent: starting
    with [mCallback] null, a run of requests that registers no callback adds
    no [onFingerDown] and no [onFingerUp]. *)
Theorem no_callback_sends_no_finger_event
    (FOD_HBM : Z) (rs : list request) (s : service) :
  mCallback s = None →
  (∀ callback, Callback (Some callback) ∉ rs) →
  List.filter is_finger_event (calls (serve_all FOD_HBM s rs))
    = List.filter is_finger_event (calls s).
Proof.
  revert s. induction rs as [|r rs IH]; intros s Hc Hno; [reflexivity|].
  rewrite serve_all_cons.
  destruct (serve_no_callback FOD_HBM s r Hc) as [Hc' Hf].
  { intros cb ->. apply (Hno cb). left. }
  rewrite IH; [exact Hf|exact Hc'|].
  intros cb Hin. apply (Hno cb). right. exact Hin.
Qed.

Lemma no_callback_sends_no_finger_event_witness :
  List.filter is_finger_event
    (calls (serve_all 0 FingerprintInscreen_new
              [ShowFODView; Acquired 6 0; Callback None; Acquired 6 1]))
  = List.filter is_finger_event (calls FingerprintInscreen_new).
Proof.
  apply (no_callback_sends_no_finger_event 0
           [ShowFODView; Acquired 6 0; Callback None; Acquired 6 1]
           FingerprintInscreen_new).
  - reflexivity.
  - intros cb H. apply list_elem_of_In in H. simpl in H.
    repeat (destruct H as [H|H]; [discriminate H|]). exact H.
Defined.

(** X19.  In a build with [FOD_HBM] equal to 0 no handler writes to sysfs. *)
Theorem no_sysfs_write_without_FOD_HBM (rs : list request) (s : service) :
  List.filter is_sysfs_write (calls (serve_all 0 s rs))
    = List.filter is_sysfs_write (calls s).
Proof.
  revert s. induction rs as [|r rs IH]; intros s; [reflexivity|].
  rewrite serve_all_cons, IH.
  destruct r; cbn [serve];
    try (unfold onStartEnroll, onFinishEnroll, onPress, onRelease,
           onHideFODView, onShowFODView, setLongPressEnabled, setCallback,
           set_hbm, emit;
         cbn [truthy Z.eqb negb calls];
         rewrite ?filter_snoc_false by reflexivity; reflexivity).
  unfold handleAcquired.
  destruct (mCallback s); [|reflexivity].
  destruct (acquiredInfo =? _); [|reflexivity].
  destruct (mFodCircleVisible s && (vendorCode =? 0));
    [cbn [snd]; unfold emit; cbn [calls];
     rewrite filter_snoc_false by reflexivity; reflexivity|].
  destruct (mFodCircleVisible s && (vendorCode =? 1));
    [cbn [snd]; unfold emit; cbn [calls];
     rewrite filter_snoc_false by reflexivity; reflexivity|reflexivity].
Qed.

(** X20.  A release undoes a press on the display: after [onPress] followed
    by [onRelease] the display modes are those after [onRelease] alone, with
    the AOD, dim and press-notification features all at 0. *)
Theorem release_undoes_press (FOD_HBM : Z) (s : service) (m : gmap Z Z) :
  let after := display_modes m (calls (onRelease FOD_HBM (onPress FOD_HBM s))) in
  after = display_modes m (calls (onRelease FOD_HBM s)) ∧
  after !! OP_DISPLAY_AOD_MODE = Some 0 ∧
  after !! OP_DISPLAY_SET_DIM = Some 0 ∧
  after !! OP_DISPLAY_NOTIFY_PRESS = Some 0.
Proof.
  unfold onRelease, onPress, set_hbm, emit, display_modes,
    OP_DISPLAY_AOD_MODE, OP_DISPLAY_SET_DIM, OP_DISPLAY_NOTIFY_PRESS.
  destruct (truthy FOD_HBM); cbn [calls]; rewrite !foldl_app; cbn [foldl];
    (split; [apply map_eq; intros k; rewrite !lookup_insert;
             repeat case_decide; reflexivity|]);
    repeat split;
    repeat (rewrite lookup_insert_eq || rewrite lookup_insert_ne by discriminate);
    reflexivity.
Qed.

End FodHalExtra.

(** ** Further properties of the vibrator sequencing *)

Module VibExtra.
Import CInt Vib Reference Checks.

Lemma rtp_half_checked : forallb rtp_is_half (Z_range 1 255) = true.
Proof. vm_compute. reflexivity. Qed.

(** X21.  For an amplitude from 1 to 255, [setAmplitude] writes the integer
    half of the amplitude, rounded down, which lies between [MIN_RTP_INPUT]
    and [MAX_RTP_INPUT]. *)
Theorem setAmplitude_halves (amplitude : Z) (st : state) :
  1 <= amplitude <= 255 →
  setAmplitude amplitude st =
    Some (OK, mk_state (mShouldSetBrightness st)
                (writes st ++ [(RTP_INPUT_PATH, VInt (amplitude `div` 2))])) ∧
  MIN_RTP_INPUT <= amplitude `div` 2 <= MAX_RTP_INPUT.
Proof.
  intros Ha. split.
  - pose proof (FodProofs.Z_range_forallb _ _ _ rtp_half_checked amplitude) as H.
    unfold rtp_is_half in H. unfold setAmplitude.
    destruct (Z.eqb_spec amplitude 0) as [|_]; [lia|].
    destruct (rtp_input_of amplitude) as [v|]; [|discriminate H; lia].
    specialize (H ltac:(lia)). apply Z.eqb_eq in H. subst v. reflexivity.
  - unfold MIN_RTP_INPUT, MAX_RTP_INPUT.
    split; [apply Z.div_pos; lia|].
    assert (amplitude `div` 2 < 128) by (apply Z.div_lt_upper_bound; lia).
    lia.
Qed.

Lemma setAmplitude_halves_witness :
  setAmplitude 200 (mk_state true []) =
    Some (OK, mk_state true ([] ++ [(RTP_INPUT_PATH, VInt (200 `div` 2))])) ∧
  MIN_RTP_INPUT <= 200 `div` 2 <= MAX_RTP_INPUT.
Proof. apply (setAmplitude_halves 200 (mk_state true [])). lia. Defined.

(** Run a monadic body, then read the endpoints off the write log. *)
Ltac run :=
  cbv [performEffect on off on_mode setEffect when_set for_each set store_flag
       load_flag mbind mret M_bind M_ret]; cbn [writes mShouldSetBrightness].

Ltac read_endpoints :=
  unfold apply_writes; rewrite ?foldl_app; cbn [foldl fst snd];
  cbv [ACTIVATE_PATH BRIGHTNESS_PATH CTRL_LOOP_PATH DURATION_PATH GAIN_PATH
       IGNORE_STORE_PATH LRA_WAVE_SHAPE_PATH MODE_PATH SCALE_PATH SEQ_PATH
       VMAX_PATH];
  repeat split;
  repeat (rewrite lookup_insert_eq || rewrite lookup_insert_ne by discriminate);
  reflexivity.

(** X22.  After [performEffect] on a recognized effect the endpoints hold:
    gain the strength-derived byte (the constant 128 written first goes to
    the same file and is overwritten), loop the raw byte 1 (the descriptor's
    control-loop strings are overwritten), duration the nominal duration
    (the override is overwritten), activate 0 and brightness 1. *)
Theorem performEffect_endpoints
    (effect : Effect) (strength : EffectStrength) (st : state) (d : descriptor)
    (fs : gmap string value) :
  descriptor_of effect = Some d →
  ∃ st',
    performEffect effect strength st = Some ((OK, d_time_ms d), st') ∧
    let after := apply_writes fs (writes st') in
    after !! GAIN_PATH = Some (VByte (convertEffectStrength strength)) ∧
    after !! CTRL_LOOP_PATH = Some (VByte LOOP_MODE_OPEN) ∧
    after !! DURATION_PATH = Some (VInt (d_time_ms d)) ∧
    after !! ACTIVATE_PATH = Some (VInt 0) ∧
    after !! BRIGHTNESS_PATH = Some (VInt 1) ∧
    after !! MODE_PATH = Some (VStr WAVEFORM_MODE) ∧
    after !! LRA_WAVE_SHAPE_PATH = Some (VByte SINE_WAVE).
Proof.
  intros Hd.
  destruct effect; simpl in Hd; simplify_eq; eexists;
    (split; [run; reflexivity|]); cbn [writes d_time_ms]; read_endpoints.
Qed.

Lemma performEffect_endpoints_witness :
  ∃ st',
    performEffect THUD (Strength_other 9) (mk_state false []) =
      Some ((OK, 10), st') ∧
    let after := apply_writes ∅ (writes st') in
    after !! GAIN_PATH = Some (VByte (convertEffectStrength (Strength_other 9))) ∧
    after !! CTRL_LOOP_PATH = Some (VByte LOOP_MODE_OPEN) ∧
    after !! DURATION_PATH = Some (VInt 10) ∧
    after !! ACTIVATE_PATH = Some (VInt 0) ∧
    after !! BRIGHTNESS_PATH = Some (VInt 1) ∧
    after !! MODE_PATH = Some (VStr WAVEFORM_MODE) ∧
    after !! LRA_WAVE_SHAPE_PATH = Some (VByte SINE_WAVE).
Proof.
  apply (performEffect_endpoints THUD (Strength_other 9) (mk_state false [])
           (mk_descriptor [] [] (Some 0) 10) ∅).
  reflexivity.
Defined.

(** X23.  [MEDIUM] and [STRONG] are indistinguishable: for every effect and
    state, [performEffect] gives the same result and the same writes for
    both. *)
Theorem medium_equals_strong (effect : Effect) (st : state) :
  performEffect effect MEDIUM st = performEffect effect STRONG st.
Proof. destruct effect; reflexivity. Qed.

(** X24.  The value of [mShouldSetBrightness] left by earlier calls is never
    observed: [on] and [performEffect] overwrite it before reading it, and
    [off] and [setAmplitude] do not read it.  Results and writes are the
    same from either value. *)
Theorem prior_flag_is_never_observed (f1 f2 : bool) (ws : list write) :
  (∀ timeoutMs, on timeoutMs (mk_state f1 ws) = on timeoutMs (mk_state f2 ws)) ∧
  (∀ effect strength,
     performEffect effect strength (mk_state f1 ws)
       = performEffect effect strength (mk_state f2 ws)) ∧
  (∀ amplitude,
     observe (setAmplitude amplitude (mk_state f1 ws))
       = observe (setAmplitude amplitude (mk_state f2 ws))) ∧
  observe (off (mk_state f1 ws)) = observe (off (mk_state f2 ws)).
Proof.
  split; [intros; reflexivity|].
  split; [intros effect strength; destruct effect; reflexivity|].
  split; [|reflexivity].
  intros amplitude. unfold setAmplitude.
  destruct (amplitude =? 0); [reflexivity|].
  destruct (rtp_input_of amplitude); reflexivity.
Qed.

(** X25.  The public [on] always drives the activate channel in RTP mode,
    whatever ran before: it leaves the flag false and the endpoints at
    activate 1, brightness 0, mode "rtp", square wave, the given duration
    and open loop. *)
Theorem on_drives_activate_channel
    (timeoutMs : Z) (st : state) (fs : gmap string value) :
  ∃ st',
    on timeoutMs st = Some (OK, st') ∧
    mShouldSetBrightness st' = false ∧
    let after := apply_writes fs (writes st') in
    after !! ACTIVATE_PATH = Some (VInt 1) ∧
    after !! BRIGHTNESS_PATH = Some (VInt 0) ∧
    after !! MODE_PATH = Some (VStr RTP_MODE) ∧
    after !! LRA_WAVE_SHAPE_PATH = Some (VByte SQUARE_WAVE) ∧
    after !! DURATION_PATH = Some (VInt timeoutMs) ∧
    after !! CTRL_LOOP_PATH = Some (VByte LOOP_MODE_OPEN).
Proof.
  eexists. split; [run; reflexivity|]. split; [reflexivity|].
  cbn [writes]. read_endpoints.
Qed.

End VibExtra.
